(** * XAUUSD strategy: entry guards, signal generation and risk levels

    A shallow embedding of [src/lib/trading/strategies/xauusd-strategy.ts]
    (class [XAUUSDStrategy]) together with the properties its specification
    states about it.

    Numbers.  A JavaScript [number] is modelled by [number] below: a rational
    for every finite value, plus the three IEEE special values.  Finite
    arithmetic is exact (rounding and overflow of binary64 are not modelled)
    and the sign of zero is not tracked; the special values follow the
    language semantics, so that a division by zero, an [Infinity] and a [NaN]
    behave in comparisons, [Math.max] and [Math.min] as they do at run time.
    What is stated about order, sign and the special values is therefore
    what the code does; a quantity at the very edge of a comparison may
    round the other way in binary64. *)

From Stdlib Require Import QArith Qabs Qminmax Lqa Lia.
From Stdlib Require Import List Sorted String Ascii Bool Arith DecimalString.
Import ListNotations.

Local Open Scope Q_scope.

#[local] Arguments Qabs : simpl never.
#[local] Arguments Qmax : simpl never.
#[local] Arguments Qmin : simpl never.

(* ================================================================== *)
(** ** The [number] type *)
(* ================================================================== *)

Inductive number : Type :=
| Fin (q : Q)
| PosInf
| NegInf
| NaN.

Declare Scope number_scope.
Delimit Scope number_scope with num.
Bind Scope number_scope with number.

Definition isFinite (x : number) : Prop :=
  match x with Fin _ => True | _ => False end.

Definition isFiniteOpt (x : option number) : Prop :=
  match x with Some v => isFinite v | None => True end.

(** Equality of values: rationals are compared by [Qeq]. *)
Definition num_eq (x y : number) : Prop :=
  match x, y with
  | Fin a, Fin b => a == b
  | PosInf, PosInf => True
  | NegInf, NegInf => True
  | NaN, NaN => True
  | _, _ => False
  end.

Definition Qltb (a b : Q) : bool :=
  match a ?= b with Lt => true | _ => false end.

(** [x < y], [x > y], [x <= y], [x >= y]: every comparison with [NaN] is
    false. *)
Definition num_ltb (x y : number) : bool :=
  match x, y with
  | NaN, _ | _, NaN => false
  | Fin a, Fin b => Qltb a b
  | NegInf, NegInf => false
  | NegInf, _ => true
  | PosInf, _ => false
  | Fin _, PosInf => true
  | Fin _, NegInf => false
  end.

Definition num_gtb (x y : number) : bool := num_ltb y x.

Definition num_leb (x y : number) : bool :=
  match x, y with
  | NaN, _ | _, NaN => false
  | Fin a, Fin b => Qle_bool a b
  | NegInf, _ => true
  | _, PosInf => true
  | _, _ => false
  end.

Definition num_geb (x y : number) : bool := num_leb y x.

Definition num_opp (x : number) : number :=
  match x with
  | Fin a => Fin (- a)
  | PosInf => NegInf
  | NegInf => PosInf
  | NaN => NaN
  end.

Definition num_add (x y : number) : number :=
  match x, y with
  | NaN, _ | _, NaN => NaN
  | Fin a, Fin b => Fin (a + b)
  | PosInf, NegInf | NegInf, PosInf => NaN
  | PosInf, _ | _, PosInf => PosInf
  | NegInf, _ | _, NegInf => NegInf
  end.

Definition num_sub (x y : number) : number := num_add x (num_opp y).

(** The infinity of the sign of [c], [NaN] for a zero. *)
Definition inf_of_sign (c : comparison) : number :=
  match c with Gt => PosInf | Lt => NegInf | Eq => NaN end.

Definition num_sign (x : number) : comparison :=
  match x with
  | Fin a => a ?= 0
  | PosInf => Gt
  | NegInf => Lt
  | NaN => Eq
  end.

Definition sign_mul (c d : comparison) : comparison :=
  match c, d with
  | Eq, _ | _, Eq => Eq
  | Gt, e | e, Gt => e
  | Lt, Lt => Gt
  end.

Definition num_mul (x y : number) : number :=
  match x, y with
  | NaN, _ | _, NaN => NaN
  | Fin a, Fin b => Fin (a * b)
  | _, _ => inf_of_sign (sign_mul (num_sign x) (num_sign y))
  end.

(** [x / y].  A finite value over zero is an infinity of the sign of the
    dividend and [0 / 0] is [NaN]; the zero divisor is taken as [+0], which
    is the only zero the divisors of this program can be (they are results of
    [Math.abs]). *)
Definition num_div (x y : number) : number :=
  match x, y with
  | NaN, _ | _, NaN => NaN
  | Fin a, Fin b =>
      if Qeq_bool b 0 then inf_of_sign (a ?= 0) else Fin (a / b)
  | Fin _, _ => Fin 0
  | _, Fin b =>
      inf_of_sign (sign_mul (num_sign x) (if Qltb b 0 then Lt else Gt))
  | _, _ => NaN
  end.

(** [Math.abs]. *)
Definition num_abs (x : number) : number :=
  match x with
  | Fin a => Fin (Qabs a)
  | PosInf | NegInf => PosInf
  | NaN => NaN
  end.

(** [Math.max] and [Math.min] of two arguments: [NaN] as soon as one argument
    is [NaN]. *)
Definition num_max (x y : number) : number :=
  match x, y with
  | NaN, _ | _, NaN => NaN
  | Fin a, Fin b => Fin (Qmax a b)
  | PosInf, _ | _, PosInf => PosInf
  | NegInf, z | z, NegInf => z
  end.

Definition num_min (x y : number) : number :=
  match x, y with
  | NaN, _ | _, NaN => NaN
  | Fin a, Fin b => Fin (Qmin a b)
  | NegInf, _ | _, NegInf => NegInf
  | PosInf, z | z, PosInf => z
  end.

Infix "+" := num_add : number_scope.
Infix "-" := num_sub : number_scope.
Infix "*" := num_mul : number_scope.
Infix "/" := num_div : number_scope.
Infix "<?" := num_ltb : number_scope.
Infix ">?" := num_gtb (at level 70) : number_scope.
Infix ">=?" := num_geb (at level 70) : number_scope.
Infix "==" := num_eq : number_scope.

(** Numeric literals of the source. *)
Definition lit (q : Q) : number := Fin q.

(* ================================================================== *)
(** ** Data model *)
(* ================================================================== *)

(** The types of [../types] and of the indicator modules are not part of the
    source file; the records below follow the fields the strategy reads and
    the data model of the specification. *)

Record Candle : Type := {
  open : number;
  high : number;
  low : number;
  close : number;
  openTime : number;
  closeTime : number
}.

(** Keltner and Bollinger values: [{upper, middle, lower}]. *)
Record ChannelBands : Type := {
  upper : number;
  middle : number;
  lower : number
}.

Record MACDValue : Type := {
  macdLine : number;
  signalLine : number;
  histogram : number
}.

Inductive Trend : Type := up | down.

Record SuperTrendValue : Type := {
  value : number;
  trend : Trend
}.

Record IndicatorValues : Type := {
  keltner : ChannelBands;
  bollinger : ChannelBands;
  macd : MACDValue;
  cci : number;
  supertrend : SuperTrendValue;
  atr : number
}.

Record KeltnerChannelConfig : Type := {
  maPeriod : number;
  atrPeriod : number;
  atrMultiple : number
}.

Record BollingerBandsConfig : Type := {
  bbPeriod : number;
  deviation : number
}.

Record MACDConfig : Type := {
  fastPeriod : number;
  slowPeriod : number;
  signalPeriod : number
}.

Record CCIConfig : Type := { cciPeriod : number }.

Record SuperTrendConfig : Type := {
  stPeriod : number;
  multiplier : number
}.

(** [aggressiveness: 1 | 2 | 3]. *)
Inductive Aggressiveness : Type := Level1 | Level2 | Level3.

Record IndicatorsConfig : Type := {
  cfgKeltner : KeltnerChannelConfig;
  cfgBollinger : BollingerBandsConfig;
  cfgMacd : MACDConfig;
  cfgCci : CCIConfig;
  cfgSupertrend : SuperTrendConfig
}.

Record StrategyConfig : Type := {
  indicators : IndicatorsConfig;
  aggressiveness : Aggressiveness;
  trailingDistance : number
}.

Record TradingConfig : Type := { strategy : StrategyConfig }.

Inductive Side : Type := long | short.

(* ================================================================== *)
(** ** Risk levels *)
(* ================================================================== *)

(** [calculateStopLoss(entryPrice, side, indicators)]. *)
Definition calculateStopLoss
    (entryPrice : number) (side : Side) (ind : IndicatorValues) : number :=
  match side with
  | long => num_min (lower (keltner ind)) (lower (bollinger ind))
  | short => num_max (upper (keltner ind)) (upper (bollinger ind))
  end.

Definition rMultiples : list number := [lit 1.5; lit 2.5; lit 4.0].

(** [calculateTakeProfitLevels(entryPrice, stopLoss, side)]. *)
Definition calculateTakeProfitLevels
    (entryPrice stopLoss : number) (side : Side) : list number :=
  let risk := num_abs (entryPrice - stopLoss)%num in
  map (fun rMultiple =>
         match side with
         | long => (entryPrice + (risk * rMultiple))%num
         | short => (entryPrice - (risk * rMultiple))%num
         end) rMultiples.

Record TrailingResult : Type := {
  trailingStop : option number;
  highestPrice : number;
  lowestPrice : number;
  active : bool
}.

(** [calculateTrailingStop(entryPrice, currentPrice, highestPrice,
    lowestPrice, initialStopLoss, side, atr)]; [undefined] extremes are
    [None]. *)
Definition calculateTrailingStop (config : TradingConfig)
    (entryPrice currentPrice : number)
    (highestPrice lowestPrice : option number)
    (initialStopLoss : number) (side : Side) (atr : number)
  : TrailingResult :=
  let risk := num_abs (entryPrice - initialStopLoss)%num in
  let trailingDistanceATR := trailingDistance (strategy config) in
  match side with
  | long =>
      let newHighest :=
        match highestPrice with
        | None => currentPrice
        | Some h => num_max h currentPrice
        end in
      let profit := (currentPrice - entryPrice)%num in
      let profitR := (profit / risk)%num in
      if (profitR >=? lit 1.0)%num then
        let breakeven := entryPrice in
        let trailingStop :=
          num_max breakeven (newHighest - (atr * trailingDistanceATR))%num in
        {| trailingStop := Some trailingStop; highestPrice := newHighest;
           lowestPrice := lit 0; active := true |}
      else
        {| trailingStop := None; highestPrice := newHighest;
           lowestPrice := lit 0; active := false |}
  | short =>
      let newLowest :=
        match lowestPrice with
        | None => currentPrice
        | Some l => num_min l currentPrice
        end in
      let profit := (entryPrice - currentPrice)%num in
      let profitR := (profit / risk)%num in
      if (profitR >=? lit 1.0)%num then
        let breakeven := entryPrice in
        let trailingStop :=
          num_min breakeven (newLowest + (atr * trailingDistanceATR))%num in
        {| trailingStop := Some trailingStop; highestPrice := lit 0;
           lowestPrice := newLowest; active := true |}
      else
        {| trailingStop := None; highestPrice := lit 0;
           lowestPrice := newLowest; active := false |}
  end.

(** The caller owns the trailing state: it passes each tick's price and ATR
    and threads the returned extremes into the next call. *)
Record Tick : Type := {
  tickPrice : number;
  tickAtr : number
}.

Fixpoint trail (config : TradingConfig) (entryPrice initialStopLoss : number)
    (side : Side) (prevHighest prevLowest : option number)
    (ticks : list Tick) : list TrailingResult :=
  match ticks with
  | [] => []
  | t :: rest =>
      let r := calculateTrailingStop config entryPrice (tickPrice t)
                 prevHighest prevLowest initialStopLoss side (tickAtr t) in
      r :: trail config entryPrice initialStopLoss side
             (Some (highestPrice r)) (Some (lowestPrice r)) rest
  end.

(** The non-null trailing stops of a run, in order. *)
Fixpoint stops (rs : list TrailingResult) : list number :=
  match rs with
  | [] => []
  | r :: rest =>
      match trailingStop r with
      | Some s => s :: stops rest
      | None => stops rest
      end
  end.

(* ================================================================== *)
(** ** Effects: exceptions, instance counters and the console *)
(* ================================================================== *)

(** A thrown value, by what the catch block of [calculateIndicators] can
    make of it: an [Error] whose [message] is a string; a value that is not
    an [Error] and that [String(...)] renders; an [Error] whose [message] is
    not a string but has an [includes] of its own, with the truth value of
    its answer; or a value on which the inspection itself throws
    ([String(...)] of an object with no usable [toString], a [message] with
    no [includes]), with what it throws. *)
Inductive Thrown : Type :=
| ErrorObject (message : string)
| OtherValue (rendering : string)
| ErrorOwnIncludes (answer : bool)
| Uninspectable (raised : Thrown).

Inductive Outcome (A : Type) : Type :=
| Ret (a : A)
| Throw (e : Thrown).
Arguments Ret {A} a.
Arguments Throw {A} e.

Inductive ConsoleLine : Type :=
| ConsoleLog (text : string)
| ConsoleError (text : string) (e : Thrown).

(** The mutable state a call can touch: the four private counters of the
    instance and the console stream. *)
Record World : Type := {
  signalCheckCount : nat;
  indicatorFailCount : nat;
  longCheckCount : nat;
  shortCheckCount : nat;
  console : list ConsoleLine
}.

Definition M (A : Type) : Type := World -> Outcome A * World.

Definition ret {A} (a : A) : M A := fun w => (Ret a, w).

Definition bind {A B} (m : M A) (k : A -> M B) : M B :=
  fun w =>
    match m w with
    | (Ret a, w') => k a w'
    | (Throw e, w') => (Throw e, w')
    end.

(** An external call that returns or throws, without touching [World]. *)
Definition call {A} (o : Outcome A) : M A := fun w => (o, w).

(** [try { body } catch (error) { handler }]. *)
Definition tryCatch {A} (body : M A) (handler : Thrown -> M A) : M A :=
  fun w =>
    match body w with
    | (Ret a, w') => (Ret a, w')
    | (Throw e, w') => handler e w'
    end.

Definition consoleWrite (l : ConsoleLine) : M unit :=
  fun w =>
    (Ret tt,
     {| signalCheckCount := signalCheckCount w;
        indicatorFailCount := indicatorFailCount w;
        longCheckCount := longCheckCount w;
        shortCheckCount := shortCheckCount w;
        console := (console w ++ [l])%list |}).

Definition incrSignalCheckCount : M unit :=
  fun w =>
    (Ret tt,
     {| signalCheckCount := S (signalCheckCount w);
        indicatorFailCount := indicatorFailCount w;
        longCheckCount := longCheckCount w;
        shortCheckCount := shortCheckCount w;
        console := console w |}).

Definition incrIndicatorFailCount : M unit :=
  fun w =>
    (Ret tt,
     {| signalCheckCount := signalCheckCount w;
        indicatorFailCount := S (indicatorFailCount w);
        longCheckCount := longCheckCount w;
        shortCheckCount := shortCheckCount w;
        console := console w |}).

Definition incrLongCheckCount : M unit :=
  fun w =>
    (Ret tt,
     {| signalCheckCount := signalCheckCount w;
        indicatorFailCount := indicatorFailCount w;
        longCheckCount := S (longCheckCount w);
        shortCheckCount := shortCheckCount w;
        console := console w |}).

Definition incrShortCheckCount : M unit :=
  fun w =>
    (Ret tt,
     {| signalCheckCount := signalCheckCount w;
        indicatorFailCount := indicatorFailCount w;
        longCheckCount := longCheckCount w;
        shortCheckCount := S (shortCheckCount w);
        console := console w |}).

Definition readSignalCheckCount : M nat :=
  fun w => (Ret (signalCheckCount w), w).

Notation "x <- m ;; k" := (bind m (fun x => k))
  (at level 61, m at next level, right associativity).
Notation "m ;;; k" := (bind m (fun _ => k))
  (at level 61, right associativity).

(** [s.includes(needle)]. *)
Definition includes (s needle : string) : bool :=
  match index 0 needle s with
  | Some _ => true
  | None => false
  end.

(** [(error instanceof Error ? error.message : String(error))
    .includes('Insufficient data')], the test of the catch block; it is
    evaluated outside any [try] and may itself throw. *)
Definition mentionsInsufficientData (error : Thrown) : Outcome bool :=
  match error with
  | ErrorObject message => Ret (includes message "Insufficient data")
  | OtherValue rendering => Ret (includes rendering "Insufficient data")
  | ErrorOwnIncludes answer => Ret answer
  | Uninspectable raised => Throw raised
  end.

Definition showNat (n : nat) : string :=
  NilEmpty.string_of_uint (Nat.to_uint n).

(* ================================================================== *)
(** ** The strategy *)
(* ================================================================== *)

Record EntryCheck : Type := {
  signal : bool;
  reason : string
}.

Inductive SignalType : Type := type_long | type_short | type_none.

(** [Signal]: [{type, reason, timestamp, price, indicators?}]. *)
Record Signal : Type := {
  sigType : SignalType;
  sigReason : string;
  sigTimestamp : number;
  sigPrice : number;
  sigIndicators : option IndicatorValues
}.

Definition newline : string := String (ascii_of_nat 10) EmptyString.

Section Strategy.

Local Open Scope string_scope.

(** [Number.prototype.toFixed], a builtin of the language. *)
Variable toFixed : number -> nat -> string.

(** The indicator modules are imported by the strategy and are not part of
    the source file.  An adapter returns its latest value, [null], or
    throws; the crossover detectors return a boolean.  As functions of their
    arguments they are deterministic, which is the contract the
    specification gives them. *)
Variable getLatestKeltnerChannel :
  list Candle -> KeltnerChannelConfig -> Outcome (option ChannelBands).
Variable getLatestBollingerBands :
  list Candle -> BollingerBandsConfig -> Outcome (option ChannelBands).
Variable getLatestMACD :
  list Candle -> MACDConfig -> Outcome (option MACDValue).
Variable getLatestCCI :
  list Candle -> CCIConfig -> Outcome (option number).
Variable getLatestSuperTrend :
  list Candle -> SuperTrendConfig -> Outcome (option SuperTrendValue).
Variable calculateATR :
  list number -> list number -> list number -> number ->
  Outcome (list number).
Variable isMACDBullishCrossover : list Candle -> MACDConfig -> bool.
Variable isMACDBearishCrossover : list Candle -> MACDConfig -> bool.

Variable config : TradingConfig.

(** The per-indicator configuration objects [calculateIndicators] builds
    from [this.config]. *)
Definition keltnerConfig : KeltnerChannelConfig :=
  let ic := indicators (strategy config) in
  {| maPeriod := maPeriod (cfgKeltner ic);
     atrPeriod := atrPeriod (cfgKeltner ic);
     atrMultiple := atrMultiple (cfgKeltner ic) |}.

Definition bollingerConfig : BollingerBandsConfig :=
  let ic := indicators (strategy config) in
  {| bbPeriod := bbPeriod (cfgBollinger ic);
     deviation := deviation (cfgBollinger ic) |}.

Definition macdConfig : MACDConfig :=
  let ic := indicators (strategy config) in
  {| fastPeriod := fastPeriod (cfgMacd ic);
     slowPeriod := slowPeriod (cfgMacd ic);
     signalPeriod := signalPeriod (cfgMacd ic) |}.

Definition cciConfig : CCIConfig :=
  {| cciPeriod := cciPeriod (cfgCci (indicators (strategy config))) |}.

Definition supertrendConfig : SuperTrendConfig :=
  let ic := indicators (strategy config) in
  {| stPeriod := stPeriod (cfgSupertrend ic);
     multiplier := multiplier (cfgSupertrend ic) |}.

(** The ATR series over the highs, lows and closes of the candles. *)
Definition atrSeries (candles : list Candle) : Outcome (list number) :=
  calculateATR (map high candles) (map low candles) (map close candles)
    (atrPeriod (cfgKeltner (indicators (strategy config)))).

(** [calculateIndicators(candles)]. *)
Definition calculateIndicators (candles : list Candle)
  : M (option IndicatorValues) :=
  if (List.length candles <? 35)%nat then ret None
  else
    tryCatch
      (keltner <- call (getLatestKeltnerChannel candles keltnerConfig) ;;
       bollinger <- call (getLatestBollingerBands candles bollingerConfig) ;;
       macd <- call (getLatestMACD candles macdConfig) ;;
       cci <- call (getLatestCCI candles cciConfig) ;;
       supertrend <- call (getLatestSuperTrend candles supertrendConfig) ;;
       atrValues <- call (atrSeries candles) ;;
       match keltner, bollinger, macd, cci, supertrend, atrValues with
       | Some k, Some b, Some m, Some c, Some s, a :: _ =>
           ret (Some {| keltner := k; bollinger := b; macd := m; cci := c;
                        supertrend := s; atr := last atrValues a |})
       | _, _, _, _, _, _ => ret None
       end)
      (fun error =>
         insufficient <- call (mentionsInsufficientData error) ;;
         (if negb insufficient
          then consoleWrite
                 (ConsoleError "[Strategy] Error calculating indicators:"
                    error)
          else ret tt) ;;;
         ret None).

Definition fixedMACD : MACDConfig :=
  {| fastPeriod := lit 12; slowPeriod := lit 26; signalPeriod := lit 9 |}.

Definition isUp (t : Trend) : bool :=
  match t with up => true | down => false end.
Definition isDown (t : Trend) : bool :=
  match t with down => true | up => false end.

(** [checkLongEntry(price, indicators1m, candles1m, aggressiveness,
    indicators5m)]. *)
Definition checkLongEntry (price : number) (indicators1m : IndicatorValues)
    (candles1m : list Candle) (aggressiveness : Aggressiveness)
    (indicators5m : option IndicatorValues) : EntryCheck :=
  let priceAboveKC := (price >? upper (keltner indicators1m))%num in
  if negb priceAboveKC then
    {| signal := false;
       reason := "价格未突破KC上轨 (" ++ toFixed price 2 ++ " <= "
                 ++ toFixed (upper (keltner indicators1m)) 2 ++ ")" |}
  else
  let priceAboveBB := (price >? upper (bollinger indicators1m))%num in
  if negb priceAboveBB then
    {| signal := false;
       reason := "价格未突破BB上轨 (" ++ toFixed price 2 ++ " <= "
                 ++ toFixed (upper (bollinger indicators1m)) 2 ++ ")" |}
  else
  let macdBullishCrossover := isMACDBullishCrossover candles1m fixedMACD in
  if negb macdBullishCrossover then
    {| signal := false; reason := "MACD未金叉" |}
  else
  match aggressiveness with
  | Level1 =>
      let cciStrong := (cci indicators1m >? lit 100)%num in
      let supertrendBullish := isUp (trend (supertrend indicators1m)) in
      if negb cciStrong then
        {| signal := false;
           reason := "CCI不够强 (" ++ toFixed (cci indicators1m) 0
                     ++ " <= 100)" |}
      else if negb supertrendBullish then
        {| signal := false; reason := "SuperTrend不是看涨趋势" |}
      else
        {| signal := true;
           reason := "做多 (保守): KC+BB+MACD金叉 CCI="
                     ++ toFixed (cci indicators1m) 0 ++ " ST↑" |}
  | Level2 =>
      let cciModerate := (cci indicators1m >? lit 50)%num in
      let supertrendBullish := isUp (trend (supertrend indicators1m)) in
      if negb cciModerate then
        {| signal := false;
           reason := "CCI不够强 (" ++ toFixed (cci indicators1m) 0
                     ++ " <= 50)" |}
      else if negb supertrendBullish then
        {| signal := false; reason := "SuperTrend不是看涨趋势" |}
      else
        {| signal := true;
           reason := "做多 (中等): KC+BB+MACD金叉 CCI="
                     ++ toFixed (cci indicators1m) 0 ++ " ST↑" |}
  | Level3 =>
      let cciPositive := (cci indicators1m >? lit 0)%num in
      if negb cciPositive then
        {| signal := false;
           reason := "CCI为负 (" ++ toFixed (cci indicators1m) 0
                     ++ " <= 0)" |}
      else
        {| signal := true;
           reason := "做多 (激进): KC+BB+MACD金叉 CCI="
                     ++ toFixed (cci indicators1m) 0 |}
  end.

(** [checkShortEntry(price, indicators1m, candles1m, aggressiveness,
    indicators5m)]. *)
Definition checkShortEntry (price : number) (indicators1m : IndicatorValues)
    (candles1m : list Candle) (aggressiveness : Aggressiveness)
    (indicators5m : option IndicatorValues) : EntryCheck :=
  let priceBelowKC := (price <? lower (keltner indicators1m))%num in
  if negb priceBelowKC then
    {| signal := false;
       reason := "价格未跌破KC下轨 (" ++ toFixed price 2 ++ " >= "
                 ++ toFixed (lower (keltner indicators1m)) 2 ++ ")" |}
  else
  let priceBelowBB := (price <? lower (bollinger indicators1m))%num in
  if negb priceBelowBB then
    {| signal := false;
       reason := "价格未跌破BB下轨 (" ++ toFixed price 2 ++ " >= "
                 ++ toFixed (lower (bollinger indicators1m)) 2 ++ ")" |}
  else
  let macdBearishCrossover := isMACDBearishCrossover candles1m fixedMACD in
  if negb macdBearishCrossover then
    {| signal := false; reason := "MACD未死叉" |}
  else
  match aggressiveness with
  | Level1 =>
      let cciStrong := (cci indicators1m <? lit (-100))%num in
      let supertrendBearish := isDown (trend (supertrend indicators1m)) in
      if negb cciStrong then
        {| signal := false;
           reason := "CCI不够强 (" ++ toFixed (cci indicators1m) 0
                     ++ " >= -100)" |}
      else if negb supertrendBearish then
        {| signal := false; reason := "SuperTrend不是看跌趋势" |}
      else
        {| signal := true;
           reason := "做空 (保守): KC+BB+MACD死叉 CCI="
                     ++ toFixed (cci indicators1m) 0 ++ " ST↓" |}
  | Level2 =>
      let cciModerate := (cci indicators1m <? lit (-50))%num in
      let supertrendBearish := isDown (trend (supertrend indicators1m)) in
      if negb cciModerate then
        {| signal := false;
           reason := "CCI不够强 (" ++ toFixed (cci indicators1m) 0
                     ++ " >= -50)" |}
      else if negb supertrendBearish then
        {| signal := false; reason := "SuperTrend不是看跌趋势" |}
      else
        {| signal := true;
           reason := "做空 (中等): KC+BB+MACD死叉 CCI="
                     ++ toFixed (cci indicators1m) 0 ++ " ST↓" |}
  | Level3 =>
      let cciNegative := (cci indicators1m <? lit 0)%num in
      if negb cciNegative then
        {| signal := false;
           reason := "CCI为正 (" ++ toFixed (cci indicators1m) 0
                     ++ " >= 0)" |}
      else
        {| signal := true;
           reason := "做空 (激进): KC+BB+MACD死叉 CCI="
                     ++ toFixed (cci indicators1m) 0 |}
  end.

(** [generateSignal(candles1m, candles5m?)]; [now] is the value [Date.now()]
    would return during the call. *)
Definition generateSignal (now : number) (candles1m : list Candle)
    (candles5m : option (list Candle)) : M Signal :=
  incrSignalCheckCount ;;;
  match candles1m with
  | [] =>
      ret {| sigType := type_none; sigReason := "No candle data";
             sigTimestamp := now; sigPrice := lit 0;
             sigIndicators := None |}
  | first :: _ =>
      let latestCandle1m := last candles1m first in
      let price := close latestCandle1m in
      indicators1m <- calculateIndicators candles1m ;;
      match indicators1m with
      | None =>
          incrIndicatorFailCount ;;;
          ret {| sigType := type_none;
                 sigReason := "Insufficient data for indicators";
                 sigTimestamp := closeTime latestCandle1m;
                 sigPrice := price; sigIndicators := None |}
      | Some indicators1m =>
          indicators5m <-
            match candles5m with
            | Some ((_ :: _) as c5) => calculateIndicators c5
            | _ => ret None
            end ;;
          let longCheck :=
            checkLongEntry price indicators1m candles1m
              (aggressiveness (strategy config)) indicators5m in
          if signal longCheck then
            count <- readSignalCheckCount ;;
            consoleWrite
              (ConsoleLog (newline ++ "[SIGNAL] LONG at check "
                           ++ showNat count ++ ": " ++ reason longCheck)) ;;;
            incrLongCheckCount ;;;
            ret {| sigType := type_long; sigReason := reason longCheck;
                   sigTimestamp := closeTime latestCandle1m;
                   sigPrice := price;
                   sigIndicators := Some indicators1m |}
          else
          let shortCheck :=
            checkShortEntry price indicators1m candles1m
              (aggressiveness (strategy config)) indicators5m in
          if signal shortCheck then
            count <- readSignalCheckCount ;;
            consoleWrite
              (ConsoleLog (newline ++ "[SIGNAL] SHORT at check "
                           ++ showNat count ++ ": " ++ reason shortCheck)) ;;;
            incrShortCheckCount ;;;
            ret {| sigType := type_short; sigReason := reason shortCheck;
                   sigTimestamp := closeTime latestCandle1m;
                   sigPrice := price;
                   sigIndicators := Some indicators1m |}
          else
            ret {| sigType := type_none;
                   sigReason := "No entry conditions met";
                   sigTimestamp := closeTime latestCandle1m;
                   sigPrice := price;
                   sigIndicators := Some indicators1m |}
      end
  end.

(** *** The guard pipeline as the specification words it

    The guards in their fixed order, the tier table of the auxiliary
    filter, and the reason reported for each guard.  These are compared
    with [checkLongEntry] and [checkShortEntry] below. *)

Inductive Guard : Type :=
| KeltnerBreakout
| BollingerBreakout
| MacdCrossover
| AuxiliaryCci
| AuxiliarySuperTrend.

Definition spec_cciThresholdLong (a : Aggressiveness) : number :=
  match a with Level1 => lit 100 | Level2 => lit 50 | Level3 => lit 0 end.

Definition spec_cciThresholdShort (a : Aggressiveness) : number :=
  match a with
  | Level1 => lit (-100) | Level2 => lit (-50) | Level3 => lit 0
  end.

Definition spec_needsSuperTrend (a : Aggressiveness) : bool :=
  match a with Level1 | Level2 => true | Level3 => false end.

Definition spec_auxLong (a : Aggressiveness) (ind : IndicatorValues)
  : bool :=
  (cci ind >? spec_cciThresholdLong a)%num
  && (negb (spec_needsSuperTrend a) || isUp (trend (supertrend ind))).

Definition spec_auxShort (a : Aggressiveness) (ind : IndicatorValues)
  : bool :=
  (cci ind <? spec_cciThresholdShort a)%num
  && (negb (spec_needsSuperTrend a) || isDown (trend (supertrend ind))).

(** The first guard that fails, in the order Keltner, Bollinger, MACD,
    auxiliary (CCI before SuperTrend); [None] when all hold. *)
Definition spec_firstUnmetLong (price : number) (ind : IndicatorValues)
    (candles : list Candle) (a : Aggressiveness) : option Guard :=
  if negb (price >? upper (keltner ind))%num then Some KeltnerBreakout
  else if negb (price >? upper (bollinger ind))%num
  then Some BollingerBreakout
  else if negb (isMACDBullishCrossover candles fixedMACD)
  then Some MacdCrossover
  else if negb (cci ind >? spec_cciThresholdLong a)%num
  then Some AuxiliaryCci
  else if spec_needsSuperTrend a && negb (isUp (trend (supertrend ind)))
  then Some AuxiliarySuperTrend
  else None.

Definition spec_firstUnmetShort (price : number) (ind : IndicatorValues)
    (candles : list Candle) (a : Aggressiveness) : option Guard :=
  if negb (price <? lower (keltner ind))%num then Some KeltnerBreakout
  else if negb (price <? lower (bollinger ind))%num
  then Some BollingerBreakout
  else if negb (isMACDBearishCrossover candles fixedMACD)
  then Some MacdCrossover
  else if negb (cci ind <? spec_cciThresholdShort a)%num
  then Some AuxiliaryCci
  else if spec_needsSuperTrend a && negb (isDown (trend (supertrend ind)))
  then Some AuxiliarySuperTrend
  else None.

(** The reason string that names each guard of the long check. *)
Definition longReason (g : Guard) (price : number) (ind : IndicatorValues)
    (a : Aggressiveness) : string :=
  match g with
  | KeltnerBreakout =>
      "价格未突破KC上轨 (" ++ toFixed price 2 ++ " <= "
      ++ toFixed (upper (keltner ind)) 2 ++ ")"
  | BollingerBreakout =>
      "价格未突破BB上轨 (" ++ toFixed price 2 ++ " <= "
      ++ toFixed (upper (bollinger ind)) 2 ++ ")"
  | MacdCrossover => "MACD未金叉"
  | AuxiliaryCci =>
      match a with
      | Level1 => "CCI不够强 (" ++ toFixed (cci ind) 0 ++ " <= 100)"
      | Level2 => "CCI不够强 (" ++ toFixed (cci ind) 0 ++ " <= 50)"
      | Level3 => "CCI为负 (" ++ toFixed (cci ind) 0 ++ " <= 0)"
      end
  | AuxiliarySuperTrend => "SuperTrend不是看涨趋势"
  end.

(** The reason string that names each guard of the short check. *)
Definition shortReason (g : Guard) (price : number) (ind : IndicatorValues)
    (a : Aggressiveness) : string :=
  match g with
  | KeltnerBreakout =>
      "价格未跌破KC下轨 (" ++ toFixed price 2 ++ " >= "
      ++ toFixed (lower (keltner ind)) 2 ++ ")"
  | BollingerBreakout =>
      "价格未跌破BB下轨 (" ++ toFixed price 2 ++ " >= "
      ++ toFixed (lower (bollinger ind)) 2 ++ ")"
  | MacdCrossover => "MACD未死叉"
  | AuxiliaryCci =>
      match a with
      | Level1 => "CCI不够强 (" ++ toFixed (cci ind) 0 ++ " >= -100)"
      | Level2 => "CCI不够强 (" ++ toFixed (cci ind) 0 ++ " >= -50)"
      | Level3 => "CCI为正 (" ++ toFixed (cci ind) 0 ++ " >= 0)"
      end
  | AuxiliarySuperTrend => "SuperTrend不是看跌趋势"
  end.

End Strategy.

(* ================================================================== *)
(** ** Notions used in the statements *)
(* ================================================================== *)

(** Profit in R multiples of one tick, as [calculateTrailingStop] computes
    it: the profit of the side over [risk = |entryPrice - initialStopLoss|]. *)
Definition profitInR (side : Side)
    (entryPrice currentPrice initialStopLoss : number) : number :=
  let risk := num_abs (entryPrice - initialStopLoss)%num in
  let profit :=
    match side with
    | long => (currentPrice - entryPrice)%num
    | short => (entryPrice - currentPrice)%num
    end in
  (profit / risk)%num.

(** The distance the stop trails the extreme by on a tick. *)
Definition trailingOffset (config : TradingConfig) (t : Tick) : number :=
  (tickAtr t * trailingDistance (strategy config))%num.

(** [later] is at least as favourable to the position as [earlier]. *)
Definition noWorse (side : Side) (earlier later : number) : Prop :=
  match side with
  | long => num_leb earlier later = true
  | short => num_leb later earlier = true
  end.

Definition finiteTick (t : Tick) : Prop :=
  isFinite (tickPrice t) /\ isFinite (tickAtr t).

(** The offset does not grow from a tick to a later one. *)
Definition offsetNotLarger (config : TradingConfig) (earlier later : Tick)
  : Prop :=
  num_leb (trailingOffset config later) (trailingOffset config earlier) = true.

(** [r] is the lesser (greater) of [a] and [b]. *)
Definition isLesserOf (r a b : number) : Prop :=
  (r = a \/ r = b) /\ num_leb r a = true /\ num_leb r b = true.

Definition isGreaterOf (r a b : number) : Prop :=
  (r = a \/ r = b) /\ num_leb a r = true /\ num_leb b r = true.

(** A computation that returns [v] from every state, whatever the counters
    and the console hold. *)
Definition returnsAlways {A} (m : M A) (v : A) : Prop :=
  forall w, exists w', m w = (Ret v, w').

(** A computation that ends the same way, with the same value or the same
    thrown value, from every state. *)
Definition yieldsAlways {A} (m : M A) (o : Outcome A) : Prop :=
  forall w, exists w', m w = (o, w').

(** The catch block can inspect the value: its test returns. *)
Definition inspectable (e : Thrown) : Prop :=
  exists insufficient, mentionsInsufficientData e = Ret insufficient.

(** The value an external call threw, if it threw. *)
Definition thrownOf {A} (o : Outcome A) : option Thrown :=
  match o with
  | Ret _ => None
  | Throw e => Some e
  end.

(** The first thrown value of a sequence of calls, in call order. *)
Fixpoint firstThrown (calls : list (option Thrown)) : option Thrown :=
  match calls with
  | [] => None
  | Some e :: _ => Some e
  | None :: rest => firstThrown rest
  end.

Section AdapterCalls.

Variable getLatestKeltnerChannel :
  list Candle -> KeltnerChannelConfig -> Outcome (option ChannelBands).
Variable getLatestBollingerBands :
  list Candle -> BollingerBandsConfig -> Outcome (option ChannelBands).
Variable getLatestMACD :
  list Candle -> MACDConfig -> Outcome (option MACDValue).
Variable getLatestCCI :
  list Candle -> CCIConfig -> Outcome (option number).
Variable getLatestSuperTrend :
  list Candle -> SuperTrendConfig -> Outcome (option SuperTrendValue).
Variable calculateATR :
  list number -> list number -> list number -> number ->
  Outcome (list number).
Variable config : TradingConfig.

(** What the first adapter to throw on these candles throws, in the order
    [calculateIndicators] calls them. *)
Definition adapterThrows (candles : list Candle) : option Thrown :=
  firstThrown
    [thrownOf (getLatestKeltnerChannel candles (keltnerConfig config));
     thrownOf (getLatestBollingerBands candles (bollingerConfig config));
     thrownOf (getLatestMACD candles (macdConfig config));
     thrownOf (getLatestCCI candles (cciConfig config));
     thrownOf (getLatestSuperTrend candles (supertrendConfig config));
     thrownOf (atrSeries calculateATR config candles)].

(** No adapter throws on these candles a value the catch block cannot
    inspect. *)
Definition catchCompletes (candles : list Candle) : Prop :=
  match adapterThrows candles with
  | Some e => inspectable e
  | None => True
  end.

(** The same for the 5-minute candles, when [generateSignal] builds their
    snapshot. *)
Definition confirmationCompletes (candles5m : option (list Candle)) : Prop :=
  match candles5m with
  | Some ((_ :: _) as c5) => catchCompletes c5
  | _ => True
  end.

End AdapterCalls.

(** The level the stop trails at on a tick: the updated extreme less
    (long) or plus (short) ATR times the trailing distance. *)
Definition trailedLevel (config : TradingConfig) (side : Side)
    (currentPrice : number) (hi lo : option number) (atr : number)
  : number :=
  match side with
  | long =>
      (match hi with
       | None => currentPrice
       | Some h => num_max h currentPrice
       end - (atr * trailingDistance (strategy config)))%num
  | short =>
      (match lo with
       | None => currentPrice
       | Some l => num_min l currentPrice
       end + (atr * trailingDistance (strategy config)))%num
  end.

(** The level is a number and is not infinite on the profit side of the
    position. *)
Definition levelIsBounded (side : Side) (level : number) : Prop :=
  match level, side with
  | Fin _, _ => True
  | NegInf, long => True
  | PosInf, short => True
  | _, _ => False
  end.

(** The profit of a tick on finite prices. *)
Definition profitQ (side : Side) (entry current : Q) : Q :=
  match side with
  | long => current - entry
  | short => entry - current
  end.

(* ================================================================== *)
(** ** Sample inputs *)
(* ================================================================== *)

(** A configuration with the given tier and trailing distance. *)
Definition sampleConfig (a : Aggressiveness) (d : Q) : TradingConfig :=
  {| strategy :=
       {| indicators :=
            {| cfgKeltner := {| maPeriod := lit 20; atrPeriod := lit 14;
                                atrMultiple := lit 2 |};
               cfgBollinger := {| bbPeriod := lit 20; deviation := lit 2 |};
               cfgMacd := {| fastPeriod := lit 12; slowPeriod := lit 26;
                             signalPeriod := lit 9 |};
               cfgCci := {| cciPeriod := lit 20 |};
               cfgSupertrend := {| stPeriod := lit 10;
                                   multiplier := lit 3 |} |};
          aggressiveness := a;
          trailingDistance := lit d |} |}.

Definition tick (p a : Q) : Tick :=
  {| tickPrice := Fin p; tickAtr := Fin a |}.

(** A long position entered at 100 with its initial stop at 90: price 120
    with ATR 1, then price 115 with ATR 10. *)
Definition wideningAtrRun : list TrailingResult :=
  trail (sampleConfig Level1 1) (lit 100) (lit 90) long None None
    [tick 120 1; tick 115 10].

(** The same position: price 110, then price 105. *)
Definition retreatingRun : list TrailingResult :=
  trail (sampleConfig Level1 1) (lit 100) (lit 90) long None None
    [tick 110 1; tick 105 1].

(** The same position with a constant ATR. *)
Definition steadyTicks : list Tick := [tick 120 1; tick 115 1; tick 125 1].

(** A snapshot with the given upper and lower bands, CCI and trend. *)
Definition sampleSnapshot (kcUpper kcLower bbUpper bbLower cciValue : Q)
    (t : Trend) : IndicatorValues :=
  {| keltner := {| upper := lit kcUpper; middle := lit 2000;
                   lower := lit kcLower |};
     bollinger := {| upper := lit bbUpper; middle := lit 2000;
                     lower := lit bbLower |};
     macd := {| macdLine := lit 1; signalLine := lit 0.5;
                histogram := lit 0.5 |};
     cci := lit cciValue;
     supertrend := {| value := lit 1990; trend := t |};
     atr := lit 5 |}.

(** Simple instances of the builtins and adapters for evaluated examples. *)
Definition sampleToFixed (x : number) (digits : nat) : string := "#"%string.

Definition crossoverAlways (b : bool) (candles : list Candle)
    (cfg : MACDConfig) : bool := b.

Definition sampleCandle (c : Q) : Candle :=
  {| open := lit c; high := lit c; low := lit c; close := lit c;
     openTime := lit 0; closeTime := lit 60000 |}.

(** Thirty-five candles closing at 2050. *)
Definition sampleCandles : list Candle := repeat (sampleCandle 2050) 35.

(** An adapter that answers [v] on every input. *)
Definition constAdapter {C V : Type} (v : Outcome (option V))
    (candles : list Candle) (cfg : C) : Outcome (option V) := v.

Definition constATR (v : Outcome (list number))
    (highs lows closes : list number) (period : number)
  : Outcome (list number) := v.

Definition sampleBandsKC : ChannelBands :=
  {| upper := lit 2045; middle := lit 2000; lower := lit 1985 |}.

Definition sampleBandsBB : ChannelBands :=
  {| upper := lit 2040; middle := lit 2000; lower := lit 1990 |}.

Definition sampleMACD : MACDValue :=
  {| macdLine := lit 1; signalLine := lit 0.5; histogram := lit 0.5 |}.

Definition sampleSuperTrend : SuperTrendValue :=
  {| value := lit 1990; trend := up |}.

Definition freshWorld : World :=
  {| signalCheckCount := 0; indicatorFailCount := 0; longCheckCount := 0;
     shortCheckCount := 0; console := [] |}.

Definition usedWorld : World :=
  {| signalCheckCount := 41; indicatorFailCount := 7; longCheckCount := 3;
     shortCheckCount := 2; console := [ConsoleLog "earlier output"] |}.

(** The signal generator over adapters that answer the sample values, with
    the CCI adapter given. *)
Definition sampleGenerate (cciAdapter : list Candle -> CCIConfig ->
                                        Outcome (option number))
    (now : number) (candles1m : list Candle)
    (candles5m : option (list Candle)) : M Signal :=
  generateSignal sampleToFixed
    (constAdapter (Ret (Some sampleBandsKC)))
    (constAdapter (Ret (Some sampleBandsBB)))
    (constAdapter (Ret (Some sampleMACD)))
    cciAdapter
    (constAdapter (Ret (Some sampleSuperTrend)))
    (constATR (Ret [lit 4; lit 5]))
    (crossoverAlways true) (crossoverAlways false)
    (sampleConfig Level1 1) now candles1m candles5m.

(* ================================================================== *)
(** ** Further notions *)
(* ================================================================== *)

(** The extreme a side tracks: the high of a long, the low of a short. *)
Definition extremeOf (side : Side) (r : TrailingResult) : number :=
  match side with
  | long => highestPrice r
  | short => lowestPrice r
  end.

(** The carried extreme a side reads. *)
Definition carriedOf (side : Side) (hi lo : option number) : option number :=
  match side with
  | long => hi
  | short => lo
  end.

(** The four counters of two states agree. *)
Definition sameCounters (w w' : World) : Prop :=
  signalCheckCount w' = signalCheckCount w
  /\ indicatorFailCount w' = indicatorFailCount w
  /\ longCheckCount w' = longCheckCount w
  /\ shortCheckCount w' = shortCheckCount w.

(** Each channel of the snapshot has its lower band at or below its upper
    band. *)
Definition bandsOrdered (ind : IndicatorValues) : Prop :=
  num_leb (lower (keltner ind)) (upper (keltner ind)) = true
  /\ num_leb (lower (bollinger ind)) (upper (bollinger ind)) = true.

(** Price, ATR and carried extremes for an evaluated run of a short. *)
Definition shortTicks : list Tick := [tick 88 1; tick 91 2; tick 85 1].

(** The first line of the catch block of [calculateIndicators]. *)
Definition errorLine (e : Thrown) : ConsoleLine :=
  ConsoleError "[Strategy] Error calculating indicators:" e.

(** The state after one more line on the console. *)
Definition withLine (w : World) (l : ConsoleLine) : World :=
  snd (consoleWrite l w).

(** The console line [generateSignal] writes for a signal, at check [n]. *)
Definition signalLogLine (sig : Signal) (n : nat) : ConsoleLine :=
  ConsoleLog
    (newline ++ "[SIGNAL] "
     ++ match sigType sig with type_short => "SHORT" | _ => "LONG" end
     ++ " at check " ++ showNat n ++ ": " ++ sigReason sig)%string.

(** One when the condition holds, zero otherwise. *)
Definition oneIf (b : bool) : nat := if b then 1%nat else 0%nat.

Definition isLong (t : SignalType) : bool :=
  match t with type_long => true | _ => false end.

Definition isShort (t : SignalType) : bool :=
  match t with type_short => true | _ => false end.

(** The state after a call that found too little history: one more check,
    one more indicator failure. *)
Definition afterWarmUp (w : World) : World :=
  {| signalCheckCount := S (signalCheckCount w);
     indicatorFailCount := S (indicatorFailCount w);
     longCheckCount := longCheckCount w;
     shortCheckCount := shortCheckCount w;
     console := console w |}.

(* ================================================================== *)
(** ** Facts about numbers *)
(* ================================================================== *)

Lemma Qltb_true (a b : Q) : Qltb a b = true <-> a < b.
Proof.
  unfold Qltb. rewrite Qlt_alt.
  destruct (a ?= b); split; intro H; congruence.
Qed.

Lemma Qltb_false (a b : Q) : Qltb a b = false <-> b <= a.
Proof.
  split; intro H.
  - apply Qnot_lt_le. intro L. apply Qltb_true in L. congruence.
  - destruct (Qltb a b) eqn:E; [|reflexivity].
    apply Qltb_true in E. lra.
Qed.

Lemma Qle_bool_false (a b : Q) : Qle_bool a b = false <-> b < a.
Proof.
  split; intro H.
  - apply Qnot_le_lt. intro L. apply Qle_bool_iff in L. congruence.
  - destruct (Qle_bool a b) eqn:E; [|reflexivity].
    apply Qle_bool_iff in E. lra.
Qed.

Lemma Qabs_spec (x : Q) :
  (0 <= x /\ Qabs x == x) \/ (x <= 0 /\ Qabs x == - x).
Proof.
  apply (Qabs_case x (fun y => (0 <= x /\ y == x) \/ (x <= 0 /\ y == - x)));
    intro H; [left | right]; split; auto; reflexivity.
Qed.

(** Booleans on rationals to propositions, in the goal and the context. *)
Ltac qprop :=
  repeat match goal with
    | H : Qltb _ _ = true |- _ => apply Qltb_true in H
    | H : Qltb _ _ = false |- _ => apply Qltb_false in H
    | H : Qle_bool _ _ = true |- _ => apply Qle_bool_iff in H
    | H : Qle_bool _ _ = false |- _ => apply Qle_bool_false in H
    | H : Qeq_bool _ _ = true |- _ => apply Qeq_bool_iff in H
    | H : Qeq_bool _ _ = false |- _ => apply Qeq_bool_neq in H
    | |- Qltb _ _ = true => apply Qltb_true
    | |- Qltb _ _ = false => apply Qltb_false
    | |- Qle_bool _ _ = true => apply Qle_bool_iff
    | |- Qle_bool _ _ = false => apply Qle_bool_false
    end.

(** Name every [Qmax], [Qmin] and [Qabs] and keep its defining cases. *)
Ltac qname t spec :=
  let m := fresh "m" in
  let Hm := fresh "Hm" in
  let Em := fresh "Em" in
  pose proof spec as Hm;
  remember t as m eqn:Em in *; clear Em.

Ltac qcases :=
  repeat match goal with
    | |- context [Qmax ?a ?b] => qname (Qmax a b) (Q.max_spec a b)
    | |- context [Qmin ?a ?b] => qname (Qmin a b) (Q.min_spec a b)
    | |- context [Qabs ?a] => qname (Qabs a) (Qabs_spec a)
    | H : context [Qmax ?a ?b] |- _ => qname (Qmax a b) (Q.max_spec a b)
    | H : context [Qmin ?a ?b] |- _ => qname (Qmin a b) (Q.min_spec a b)
    | H : context [Qabs ?a] |- _ => qname (Qabs a) (Qabs_spec a)
    end.

Ltac qsolve := qprop; qcases; lra.

Lemma num_leb_refl (x : number) : x <> NaN -> num_leb x x = true.
Proof.
  destruct x; simpl; intro H; try reflexivity; try congruence.
  apply Qle_bool_iff. lra.
Qed.

Lemma num_leb_trans (x y z : number) :
  num_leb x y = true -> num_leb y z = true -> num_leb x z = true.
Proof.
  destruct x, y, z; simpl; intros H1 H2; try reflexivity; try discriminate.
  qsolve.
Qed.

(** The activation test on finite values: [profit / risk >= 1.0] holds
    exactly when the profit is positive and at least the risk; with a zero
    risk the quotient is [Infinity] for a positive profit, [-Infinity] for a
    negative one and [NaN] for none. *)
Lemma geb_div_one (profit risk : Q) :
  0 <= risk ->
  (num_geb (Fin profit / Fin risk)%num (lit 1.0) = true
   <-> risk <= profit /\ 0 < profit).
Proof.
  intro Hr. unfold num_geb, num_div, lit.
  destruct (Qeq_bool risk 0) eqn:E; qprop.
  - destruct (profit ?= 0) eqn:C; simpl.
    + apply Qeq_alt in C. split; [discriminate | lra].
    + apply Qlt_alt in C. split; [discriminate | lra].
    + apply Qgt_alt in C. split; [intros _; lra | reflexivity].
  - assert (Hpos : 0 < risk) by lra.
    assert (Hq : profit / risk * risk == profit) by (field; lra).
    simpl. rewrite Qle_bool_iff.
    pose proof (Qmult_le_r 1 (profit / risk) risk Hpos) as Hm.
    remember (profit / risk) as q eqn:Eq. clear Eq.
    split.
    + intro H. assert (H1 : 1 <= q) by lra. apply Hm in H1. lra.
    + intros [H _]. assert (H1 : 1 <= q) by (apply Hm; lra). lra.
Qed.

(* ================================================================== *)
(** ** The trailing stop *)
(* ================================================================== *)

(** The active flag is the test [profitR >= 1.0] of the tick, on every call
    and for both sides. *)
Lemma active_is_profit_test config entry cur hi lo sl side atr :
  active (calculateTrailingStop config entry cur hi lo sl side atr)
  = num_geb (profitInR side entry cur sl) (lit 1.0).
Proof.
  unfold calculateTrailingStop, profitInR.
  destruct side;
    match goal with |- context [if ?c then _ else _] => destruct c end;
    reflexivity.
Qed.

(** A stop is produced exactly on the active ticks. *)
Lemma stop_iff_active config entry cur hi lo sl side atr :
  let r := calculateTrailingStop config entry cur hi lo sl side atr in
  (active r = true -> exists s, trailingStop r = Some s)
  /\ (active r = false -> trailingStop r = None).
Proof.
  unfold calculateTrailingStop.
  destruct side;
    match goal with |- context [if ?c then _ else _] => destruct c end;
    simpl; split; intro H; try discriminate; eauto.
Qed.

(** The stop of a call, when there is one, is the better of the entry price
    and the trailed level. *)
Lemma stop_shape config entry cur hi lo sl side atr x :
  trailingStop (calculateTrailingStop config entry cur hi lo sl side atr)
  = Some x ->
  x = match side with
      | long => num_max entry (trailedLevel config long cur hi lo atr)
      | short => num_min entry (trailedLevel config short cur hi lo atr)
      end.
Proof.
  unfold calculateTrailingStop, trailedLevel.
  destruct side;
    match goal with |- context [if ?c then _ else _] => destruct c end;
    simpl; intro H; try discriminate H; injection H as <-; reflexivity.
Qed.

Lemma active_entry_is_a_number side entry cur sl :
  num_geb (profitInR side entry cur sl) (lit 1.0) = true -> entry <> NaN.
Proof.
  intros H ->. destruct side, cur, sl; discriminate H.
Qed.

Lemma better_of_entry_and_level side entry level :
  entry <> NaN -> level <> NaN ->
  noWorse side entry
    match side with
    | long => num_max entry level
    | short => num_min entry level
    end.
Proof.
  intros He Hl.
  destruct side, entry, level; try congruence; simpl;
    try reflexivity; qsolve.
Qed.

Lemma better_of_entry_and_nan side entry :
  match side with
  | long => num_max entry NaN
  | short => num_min entry NaN
  end = NaN.
Proof. destruct side, entry; reflexivity. Qed.

(** C6 (amended).  Breakeven lock: on every call whose profit in R is at
    least 1.0 the result carries a trailing stop, and that stop is at or
    above the entry price for a long position and at or below it for a short
    one for every ATR and every carried extreme for which the trailed level
    is a number, finite or infinite; when the level is not a number the stop
    is not a number either. *)
Theorem breakeven_lock_when_level_is_a_number
    config entry cur hi lo sl side atr :
  num_geb (profitInR side entry cur sl) (lit 1.0) = true ->
  exists s,
    trailingStop (calculateTrailingStop config entry cur hi lo sl side atr)
    = Some s
    /\ (trailedLevel config side cur hi lo atr <> NaN ->
        noWorse side entry s)
    /\ (trailedLevel config side cur hi lo atr = NaN -> s = NaN).
Proof.
  intro Hp.
  assert (Hact : active (calculateTrailingStop config entry cur hi lo sl
                           side atr) = true).
  { rewrite active_is_profit_test. exact Hp. }
  destruct (proj1 (stop_iff_active config entry cur hi lo sl side atr) Hact)
    as [s Hs].
  exists s. split; [exact Hs|].
  apply stop_shape in Hs. subst s.
  pose proof (active_entry_is_a_number side entry cur sl Hp) as He.
  split.
  - intro Hl.
    pose proof (better_of_entry_and_level side entry _ He Hl) as H.
    destruct side; exact H.
  - intro Hl.
    pose proof (better_of_entry_and_nan side entry) as H.
    destruct side; rewrite Hl; exact H.
Qed.

(** With an infinite ATR the trailed level is minus infinity and the stop
    is the entry price. *)
Lemma breakeven_lock_when_level_is_a_number_witness :
  exists s,
    trailingStop
      (calculateTrailingStop (sampleConfig Level1 1) (lit 100) (lit 110)
         None None (lit 90) long PosInf)
    = Some s
    /\ noWorse long (lit 100) s.
Proof.
  destruct (breakeven_lock_when_level_is_a_number (sampleConfig Level1 1)
              (lit 100) (lit 110) None None (lit 90) long PosInf eq_refl)
    as (s & Hs & Hlock & _).
  exists s. split; [exact Hs|]. apply Hlock. discriminate.
Defined.

(** With an ATR that is not a number the stop of an active tick is not a
    number, and is not at or above the entry price. *)
Lemma breakeven_lock_fails_on_nan_atr :
  num_geb (profitInR long (lit 100) (lit 110) (lit 90)) (lit 1.0) = true
  /\ trailingStop
       (calculateTrailingStop (sampleConfig Level1 1) (lit 100) (lit 110)
          None None (lit 90) long NaN)
     = Some NaN
  /\ ~ noWorse long (lit 100) NaN.
Proof.
  split; [reflexivity|]. split; [reflexivity|].
  simpl. discriminate.
Qed.

(** Activity depends on the tick's own price only: a tick whose price is no
    worse than the price of an active tick is active as well. *)
Lemma active_monotone config entry cur1 cur2 hi1 lo1 atr1 hi2 lo2 atr2 sl side :
  isFinite entry -> isFinite sl -> isFinite cur1 -> isFinite cur2 ->
  active (calculateTrailingStop config entry cur1 hi1 lo1 sl side atr1)
  = true ->
  noWorse side cur1 cur2 ->
  active (calculateTrailingStop config entry cur2 hi2 lo2 sl side atr2)
  = true.
Proof.
  intros He Hs H1 H2.
  rewrite !active_is_profit_test. unfold profitInR, noWorse.
  destruct entry as [e| | |], cur1 as [p1| | |], cur2 as [p2| | |],
    sl as [s| | |]; try contradiction.
  destruct side; cbn [num_sub num_add num_opp num_abs num_leb];
    rewrite !geb_div_one by apply Qabs_nonneg; intros; qsolve.
Qed.

(** The shape of one call on finite inputs. *)
Lemma long_call_shape config e p s a d hi lo :
  trailingDistance (strategy config) = Fin d ->
  isFiniteOpt hi ->
  let r := calculateTrailingStop config (Fin e) (Fin p) hi lo (Fin s) long
             (Fin a) in
  exists H,
    highestPrice r = Fin H
    /\ (match hi with Some (Fin h) => h <= H | _ => True end)
    /\ (trailingStop r = None
        \/ trailingStop r = Some (Fin (Qmax e (H - a * d)))).
Proof.
  intros Hd Hhi. unfold calculateTrailingStop. rewrite Hd.
  destruct hi as [[h| | |]|]; try contradiction; simpl;
    match goal with |- context [if ?c then _ else _] => destruct c end;
    simpl; eexists; (split; [reflexivity|]); split; auto; qsolve.
Qed.

Lemma short_call_shape config e p s a d hi lo :
  trailingDistance (strategy config) = Fin d ->
  isFiniteOpt lo ->
  let r := calculateTrailingStop config (Fin e) (Fin p) hi lo (Fin s) short
             (Fin a) in
  exists L,
    lowestPrice r = Fin L
    /\ (match lo with Some (Fin l) => L <= l | _ => True end)
    /\ (trailingStop r = None
        \/ trailingStop r = Some (Fin (Qmin e (L + a * d)))).
Proof.
  intros Hd Hlo. unfold calculateTrailingStop. rewrite Hd.
  destruct lo as [[l| | |]|]; try contradiction; simpl;
    match goal with |- context [if ?c then _ else _] => destruct c end;
    simpl; eexists; (split; [reflexivity|]); split; auto; qsolve.
Qed.

Lemma finite_offset config t d :
  trailingDistance (strategy config) = Fin d ->
  finiteTick t ->
  exists p a, t = {| tickPrice := Fin p; tickAtr := Fin a |}
              /\ trailingOffset config t = Fin (a * d).
Proof.
  intros Hd [Hp Ha]. destruct t as [[p| | |] [a| | |]]; try contradiction.
  exists p, a. split; [reflexivity|].
  unfold trailingOffset. simpl. rewrite Hd. reflexivity.
Qed.

(** Every stop of a long run is at least the stop the carried high would
    give at the largest offset of the run. *)
Lemma long_run_bound config e s d c :
  trailingDistance (strategy config) = Fin d ->
  forall ticks H lo,
    Forall finiteTick ticks ->
    Forall (fun t => num_leb (trailingOffset config t) (Fin c) = true) ticks ->
    Forall (fun x => num_leb (Fin (Qmax e (H - c))) x = true)
      (stops (trail config (Fin e) (Fin s) long (Some (Fin H)) lo ticks)).
Proof.
  intros Hd ticks. induction ticks as [|t rest IH]; intros H lo Hf Ho.
  - constructor.
  - inversion Hf as [|? ? Hft Hfr]; subst.
    inversion Ho as [|? ? Hot Hor]; subst.
    destruct (finite_offset config t d Hd Hft) as (p & a & -> & Hoff).
    rewrite Hoff in Hot. simpl in Hot.
    cbn [trail tickPrice tickAtr].
    destruct (long_call_shape config e p s a d (Some (Fin H)) lo Hd I)
      as (H' & HH & Hle & Hstop).
    cbn [stops]. rewrite HH.
    assert (Htail :
      Forall (fun x => num_leb (Fin (Qmax e (H - c))) x = true)
        (stops (trail config (Fin e) (Fin s) long (Some (Fin H'))
                  (Some (lowestPrice
                     (calculateTrailingStop config (Fin e) (Fin p)
                        (Some (Fin H)) lo (Fin s) long (Fin a)))) rest))).
    { eapply Forall_impl; [|apply (IH H' _ Hfr Hor)].
      intros x Hx. eapply num_leb_trans; [|exact Hx].
      simpl. qsolve. }
    destruct Hstop as [-> | ->]; [exact Htail|].
    constructor; [|exact Htail]. simpl. qsolve.
Qed.

Lemma short_run_bound config e s d c :
  trailingDistance (strategy config) = Fin d ->
  forall ticks hi L,
    Forall finiteTick ticks ->
    Forall (fun t => num_leb (trailingOffset config t) (Fin c) = true) ticks ->
    Forall (fun x => num_leb x (Fin (Qmin e (L + c))) = true)
      (stops (trail config (Fin e) (Fin s) short hi (Some (Fin L)) ticks)).
Proof.
  intros Hd ticks. induction ticks as [|t rest IH]; intros hi L Hf Ho.
  - constructor.
  - inversion Hf as [|? ? Hft Hfr]; subst.
    inversion Ho as [|? ? Hot Hor]; subst.
    destruct (finite_offset config t d Hd Hft) as (p & a & -> & Hoff).
    rewrite Hoff in Hot. simpl in Hot.
    cbn [trail tickPrice tickAtr].
    destruct (short_call_shape config e p s a d hi (Some (Fin L)) Hd I)
      as (L' & HL & Hle & Hstop).
    cbn [stops]. rewrite HL.
    assert (Htail :
      Forall (fun x => num_leb x (Fin (Qmin e (L + c))) = true)
        (stops (trail config (Fin e) (Fin s) short
                  (Some (highestPrice
                     (calculateTrailingStop config (Fin e) (Fin p)
                        hi (Some (Fin L)) (Fin s) short (Fin a))))
                  (Some (Fin L')) rest))).
    { eapply Forall_impl; [|apply (IH _ L' Hfr Hor)].
      intros x Hx. eapply num_leb_trans; [exact Hx|].
      simpl. qsolve. }
    destruct Hstop as [-> | ->]; [exact Htail|].
    constructor; [|exact Htail]. simpl. qsolve.
Qed.

Lemma offsetNotLarger_trans config : Transitive (offsetNotLarger config).
Proof.
  intros a b c Hab Hbc. unfold offsetNotLarger in *.
  eapply num_leb_trans; eassumption.
Qed.

(** C1 (amended).  The ratchet holds along a run as long as the trailing
    offset, ATR times the configured trailing distance, does not grow from
    one tick to the next: then the non-null stops of the run never move
    against the position, whatever the prices of the ticks are. *)
Theorem ratchet_when_offset_does_not_grow
    config entry sl side hi lo ticks :
  isFinite entry -> isFinite sl ->
  isFinite (trailingDistance (strategy config)) ->
  isFiniteOpt hi -> isFiniteOpt lo ->
  Forall finiteTick ticks ->
  Sorted (offsetNotLarger config) ticks ->
  StronglySorted (noWorse side)
    (stops (trail config entry sl side hi lo ticks)).
Proof.
  intros He Hs Hd Hhi Hlo Hf Hsorted.
  apply (Sorted_StronglySorted (offsetNotLarger_trans config)) in Hsorted.
  destruct entry as [e| | |]; try contradiction.
  destruct sl as [s| | |]; try contradiction.
  destruct (trailingDistance (strategy config)) as [d| | |] eqn:Ed;
    try contradiction.
  revert hi lo Hhi Hlo.
  induction ticks as [|t rest IH]; intros hi lo Hhi Hlo.
  - constructor.
  - inversion Hf as [|? ? Hft Hfr]; subst.
    inversion Hsorted as [|? ? Hsr Hot]; subst.
    destruct (finite_offset config t d Ed Hft) as (p & a & -> & Hoff).
    cbn [trail tickPrice tickAtr]. cbn [stops].
    destruct side.
    + destruct (long_call_shape config e p s a d hi lo Ed Hhi)
        as (H' & HH & _ & Hstop).
      rewrite HH.
      assert (Htail := IH Hfr Hsr (Some (Fin H'))
                         (Some (lowestPrice
                            (calculateTrailingStop config (Fin e) (Fin p)
                               hi lo (Fin s) long (Fin a)))) I).
      assert (Hlo' : isFiniteOpt
                (Some (lowestPrice
                   (calculateTrailingStop config (Fin e) (Fin p)
                      hi lo (Fin s) long (Fin a))))).
      { unfold calculateTrailingStop.
        match goal with |- context [if ?c then _ else _] => destruct c end;
          exact I. }
      specialize (Htail Hlo').
      destruct Hstop as [-> | ->]; [exact Htail|].
      constructor; [exact Htail|].
      apply (long_run_bound config e s d (a * d) Ed rest H' _ Hfr).
      eapply Forall_impl; [|exact Hot].
      intros t' Ht'. unfold offsetNotLarger in Ht'.
      rewrite Hoff in Ht'. exact Ht'.
    + destruct (short_call_shape config e p s a d hi lo Ed Hlo)
        as (L' & HL & _ & Hstop).
      rewrite HL.
      assert (Hhi' : isFiniteOpt
                (Some (highestPrice
                   (calculateTrailingStop config (Fin e) (Fin p)
                      hi lo (Fin s) short (Fin a))))).
      { unfold calculateTrailingStop.
        match goal with |- context [if ?c then _ else _] => destruct c end;
          exact I. }
      assert (Htail := IH Hfr Hsr _ (Some (Fin L')) Hhi' I).
      destruct Hstop as [-> | ->]; [exact Htail|].
      constructor; [exact Htail|].
      apply (short_run_bound config e s d (a * d) Ed rest _ L' Hfr).
      eapply Forall_impl; [|exact Hot].
      intros t' Ht'. unfold offsetNotLarger in Ht'.
      rewrite Hoff in Ht'. exact Ht'.
Qed.

(** A worse price with a larger ATR loosens the stop: after price 120 with
    ATR 1 the stop is 119; at price 115 (below the high of 120, profit still
    1.5R) with ATR 10 it is 110. *)
Lemma ratchet_fails_when_atr_widens :
  map active wideningAtrRun = [true; true]
  /\ Forall2 num_eq (stops wideningAtrRun) [lit 119; lit 110]
  /\ ~ StronglySorted (noWorse long) (stops wideningAtrRun).
Proof.
  split; [reflexivity|]. split.
  - vm_compute. repeat constructor.
  - intro H. vm_compute in H.
    inversion H as [|? ? _ Hall]; subst.
    inversion Hall as [|? ? Hle _]; subst.
    vm_compute in Hle. discriminate.
Qed.

Lemma ratchet_when_offset_does_not_grow_witness :
  StronglySorted (noWorse long)
    (stops (trail (sampleConfig Level1 1) (lit 100) (lit 90) long None None
              steadyTicks)).
Proof.
  apply ratchet_when_offset_does_not_grow; try exact I.
  - repeat constructor.
  - repeat constructor.
Defined.

(** Each result of a run is the call on its tick, with some carried
    extremes. *)
Lemma trail_nth config entry sl side :
  forall ticks hi lo i r,
    nth_error (trail config entry sl side hi lo ticks) i = Some r ->
    exists t hi' lo',
      nth_error ticks i = Some t
      /\ r = calculateTrailingStop config entry (tickPrice t) hi' lo' sl side
               (tickAtr t).
Proof.
  induction ticks as [|t rest IH]; intros hi lo i r H.
  - destruct i; discriminate.
  - destruct i as [|i]; simpl in H.
    + injection H as <-. exists t, hi, lo. split; reflexivity.
    + apply IH in H. destruct H as (t' & hi' & lo' & Ht & Hr).
      exists t', hi', lo'. split; assumption.
Qed.

(** A later tick with a lower price leaves the active state: at price 110
    the position is active (1R), at price 105 the next call returns
    [active = false] and no stop. *)
Lemma active_state_is_left :
  map active retreatingRun = [true; false]
  /\ map trailingStop (skipn 1 retreatingRun) = [None].
Proof. split; reflexivity. Qed.

(** C2 (amended).  Activity is decided by each tick's own price: once a call
    of a run is active, every later call whose price is no worse than that
    tick's price is active too and carries a stop. *)
Theorem active_persists_while_price_no_worse
    config entry sl side hi lo ticks i j ti tj ri rj :
  isFinite entry -> isFinite sl ->
  Forall finiteTick ticks ->
  (i < j)%nat ->
  nth_error ticks i = Some ti -> nth_error ticks j = Some tj ->
  nth_error (trail config entry sl side hi lo ticks) i = Some ri ->
  nth_error (trail config entry sl side hi lo ticks) j = Some rj ->
  active ri = true ->
  noWorse side (tickPrice ti) (tickPrice tj) ->
  active rj = true /\ exists s, trailingStop rj = Some s.
Proof.
  intros He Hs Hf _ Hti Htj Hri Hrj Hact Hnw.
  apply trail_nth in Hri. destruct Hri as (ti' & hi1 & lo1 & Hti' & ->).
  apply trail_nth in Hrj. destruct Hrj as (tj' & hi2 & lo2 & Htj' & ->).
  assert (ti' = ti) by congruence. assert (tj' = tj) by congruence. subst.
  rewrite Forall_forall in Hf.
  destruct (Hf ti (nth_error_In _ _ Hti)) as [Hpi _].
  destruct (Hf tj (nth_error_In _ _ Htj)) as [Hpj _].
  assert (Hj := active_monotone config entry (tickPrice ti) (tickPrice tj)
                  hi1 lo1 (tickAtr ti) hi2 lo2 (tickAtr tj) sl side
                  He Hs Hpi Hpj Hact Hnw).
  split; [exact Hj|].
  apply (proj1 (stop_iff_active config entry (tickPrice tj) hi2 lo2 sl side
                  (tickAtr tj))). exact Hj.
Qed.

Lemma active_persists_while_price_no_worse_witness :
  exists r2,
    nth_error (trail (sampleConfig Level1 1) (lit 100) (lit 90) long None None
                 steadyTicks) 2 = Some r2
    /\ active r2 = true /\ exists s, trailingStop r2 = Some s.
Proof.
  eexists. split; [reflexivity|].
  eapply (active_persists_while_price_no_worse
            (sampleConfig Level1 1) (lit 100) (lit 90) long None None
            steadyTicks 0 2 (tick 120 1) (tick 125 1));
    try exact I; try reflexivity.
  - repeat constructor.
  - lia.
Defined.

Lemma profitInR_finite side e p s :
  ~ e == s ->
  exists q,
    profitInR side (Fin e) (Fin p) (Fin s) = Fin q
    /\ q == profitQ side e p / Qabs (e - s).
Proof.
  intro Hne. unfold profitInR, profitQ.
  destruct side; cbn [num_sub num_add num_opp num_abs num_div];
    (destruct (Qeq_bool (Qabs (e + - s)) 0) eqn:E;
     [ exfalso; apply Hne; qsolve | eexists; split; reflexivity ]).
Qed.

Lemma profitInR_zero_risk side e p s :
  e == s ->
  profitInR side (Fin e) (Fin p) (Fin s)
  = inf_of_sign (profitQ side e p ?= 0).
Proof.
  intro He. unfold profitInR, profitQ.
  destruct side; cbn [num_sub num_add num_opp num_abs num_div];
    (destruct (Qeq_bool (Qabs (e + - s)) 0) eqn:E;
     [ reflexivity | exfalso; qprop; apply E; qsolve ]).
Qed.

Lemma inf_of_sign_not_finite c : ~ isFinite (inf_of_sign c).
Proof. destruct c; simpl; auto. Qed.

Lemma risk_not_zero (entry sl : number) :
  ~ num_eq entry sl -> ~ num_eq (num_abs (entry - sl)%num) (lit 0).
Proof.
  destruct entry as [e| | |], sl as [s| | |]; simpl; auto.
  intros Hne H. apply Hne. qsolve.
Qed.

Lemma stop_finite_iff_level_bounded side e level :
  isFinite match side with
           | long => num_max (Fin e) level
           | short => num_min (Fin e) level
           end
  <-> levelIsBounded side level.
Proof.
  destruct side, level; simpl; tauto.
Qed.

(** C10 (amended).  The profit in R is the quotient of the tick's profit
    by [|entryPrice - initialStopLoss|] on every call and for both sides,
    and the activation test reads that quotient with no test of the
    divisor.  When the entry price differs from the initial stop the divisor
    is not zero, and on finite prices the quotient is a finite number.  A
    returned stop is a finite number exactly when the trailed level is
    finite or infinite on the losing side, for a finite entry price and
    whether or not the entry price differs from the stop.  When they are
    equal the divisor is zero and the quotient is [Infinity], [-Infinity] or
    [NaN] according to the sign of the profit, so that the call is active
    exactly when the price is strictly beyond the entry. *)
Theorem profit_division_without_guard :
  (forall config entry cur hi lo sl side atr,
      active (calculateTrailingStop config entry cur hi lo sl side atr)
      = num_geb (profitInR side entry cur sl) (lit 1.0))
  /\ (forall entry sl,
         ~ num_eq entry sl ->
         ~ num_eq (num_abs (entry - sl)%num) (lit 0))
  /\ (forall side e p s,
         ~ e == s ->
         exists q,
           profitInR side (Fin e) (Fin p) (Fin s) = Fin q
           /\ q == profitQ side e p / Qabs (e - s))
  /\ (forall config side e cur sl atr hi lo x,
         trailingStop
           (calculateTrailingStop config (Fin e) cur hi lo sl side atr)
         = Some x ->
         (isFinite x
          <-> levelIsBounded side (trailedLevel config side cur hi lo atr)))
  /\ (forall side e p s,
         e == s ->
         num_eq (num_abs (Fin e - Fin s)%num) (lit 0)
         /\ profitInR side (Fin e) (Fin p) (Fin s)
            = inf_of_sign (profitQ side e p ?= 0)
         /\ ~ isFinite (profitInR side (Fin e) (Fin p) (Fin s))
         /\ forall config hi lo atr,
             active
               (calculateTrailingStop config (Fin e) (Fin p) hi lo (Fin s)
                  side atr) = true
             <-> 0 < profitQ side e p).
Proof.
  split; [exact active_is_profit_test|].
  split; [exact risk_not_zero|].
  split; [exact profitInR_finite|].
  split.
  { intros config side e cur sl atr hi lo x Hx.
    apply stop_shape in Hx. subst x.
    pose proof (stop_finite_iff_level_bounded side e
                  (trailedLevel config side cur hi lo atr)) as H.
    destruct side; exact H. }
  intros side e p s He.
  split; [simpl; qsolve|].
  split; [apply profitInR_zero_risk; exact He|].
  split.
  { rewrite (profitInR_zero_risk side e p s He).
    apply inf_of_sign_not_finite. }
  intros config hi lo atr. rewrite active_is_profit_test.
  rewrite (profitInR_zero_risk side e p s He).
  destruct (profitQ side e p ?= 0) eqn:C; simpl.
  - apply Qeq_alt in C. split; [discriminate | lra].
  - apply Qlt_alt in C. split; [discriminate | lra].
  - apply Qgt_alt in C. split; [intros _; lra | reflexivity].
Qed.

Lemma profit_division_without_guard_witness :
  (exists q,
      profitInR long (Fin 100) (Fin 110) (Fin 90) = Fin q
      /\ q == profitQ long 100 110 / Qabs (100 - 90))
  /\ isFinite (num_max (Fin 100) (Fin 110 - PosInf * Fin 1)%num)
  /\ profitInR long (Fin 100) (Fin 110) (Fin 100) = PosInf
  /\ profitInR short (Fin 100) (Fin 110) (Fin 100) = NegInf
  /\ profitInR long (Fin 100) (Fin 100) (Fin 100) = NaN.
Proof.
  destruct profit_division_without_guard as (_ & _ & Hfin & Hstop & Hzero).
  split.
  - apply Hfin. intro H. discriminate H.
  - split; [|split; [|split]].
    + apply (Hstop (sampleConfig Level1 1) long 100 (Fin 110) (Fin 90)
               PosInf None None).
      * reflexivity.
      * exact I.
    + apply (Hzero long 100 110 100). reflexivity.
    + apply (Hzero short 100 110 100). reflexivity.
    + apply (Hzero long 100 100 100). reflexivity.
Defined.

(** The entry price differs from the stop, and the stop returned on an ATR
    that is not a number is not a number. *)
Lemma stop_is_not_a_number_on_nan_atr :
  ~ num_eq (lit 100) (lit 110)
  /\ trailingStop
       (calculateTrailingStop (sampleConfig Level1 1) (lit 100) (lit 85)
          None None (lit 110) short NaN)
     = Some NaN
  /\ ~ isFinite NaN.
Proof.
  split; [intro H; discriminate H|]. split; [reflexivity|].
  simpl. tauto.
Qed.

(* ================================================================== *)
(** ** Stop-loss and take-profit levels *)
(* ================================================================== *)

(** C7.  The take-profit ladder has exactly three levels, the entry price
    plus (long) or minus (short) 1.5, 2.5 and 4.0 times
    [|entryPrice - stopLoss|], in that order, each level at least as far in
    the position's favour as the one before; entry 2000 with stop 1990, long,
    gives 2015, 2025 and 2040. *)
Theorem take_profit_ladder :
  (forall entry sl side,
      List.length (calculateTakeProfitLevels entry sl side) = 3%nat)
  /\ (forall e s,
         Forall2 num_eq
           (calculateTakeProfitLevels (Fin e) (Fin s) long)
           [Fin (e + 1.5 * Qabs (e - s)); Fin (e + 2.5 * Qabs (e - s));
            Fin (e + 4.0 * Qabs (e - s))])
  /\ (forall e s,
         Forall2 num_eq
           (calculateTakeProfitLevels (Fin e) (Fin s) short)
           [Fin (e - 1.5 * Qabs (e - s)); Fin (e - 2.5 * Qabs (e - s));
            Fin (e - 4.0 * Qabs (e - s))])
  /\ (forall e s side,
         StronglySorted (noWorse side)
           (calculateTakeProfitLevels (Fin e) (Fin s) side))
  /\ Forall2 num_eq
       (calculateTakeProfitLevels (lit 2000) (lit 1990) long)
       [lit 2015; lit 2025; lit 2040].
Proof.
  split; [reflexivity|].
  split.
  { intros e s. unfold calculateTakeProfitLevels, rMultiples, lit. simpl.
    repeat constructor; simpl; unfold Qminus; ring. }
  split.
  { intros e s. unfold calculateTakeProfitLevels, rMultiples, lit. simpl.
    repeat constructor; simpl; unfold Qminus; ring. }
  split.
  { intros e s side.
    unfold calculateTakeProfitLevels, rMultiples, lit.
    destruct side; simpl; repeat constructor; simpl; qsolve. }
  vm_compute. repeat constructor.
Qed.

Lemma Qmin_either (a b : Q) : Qmin a b = a \/ Qmin a b = b.
Proof.
  unfold Qmin, GenericMinMax.gmin. destruct (a ?= b); auto.
Qed.

Lemma Qmax_either (a b : Q) : Qmax a b = a \/ Qmax a b = b.
Proof.
  unfold Qmax, GenericMinMax.gmax. destruct (a ?= b); auto.
Qed.

Lemma num_min_lesser (a b : number) :
  a <> NaN -> b <> NaN -> isLesserOf (num_min a b) a b.
Proof.
  intros Ha Hb. unfold isLesserOf.
  destruct a as [x| | |], b as [y| | |]; try congruence; simpl;
    try (repeat split; auto; apply Qle_bool_iff; lra).
  split; [|split; qsolve].
  destruct (Qmin_either x y) as [E | E]; rewrite E; auto.
Qed.

Lemma num_max_greater (a b : number) :
  a <> NaN -> b <> NaN -> isGreaterOf (num_max a b) a b.
Proof.
  intros Ha Hb. unfold isGreaterOf.
  destruct a as [x| | |], b as [y| | |]; try congruence; simpl;
    try (repeat split; auto; apply Qle_bool_iff; lra).
  split; [|split; qsolve].
  destruct (Qmax_either x y) as [E | E]; rewrite E; auto.
Qed.

(** C8.  The initial stop-loss is the lesser of the two lower bands for a
    long position and the greater of the two upper bands for a short one,
    and it does not depend on the entry price. *)
Theorem stop_loss_from_bands :
  (forall entry entry' side ind,
      calculateStopLoss entry side ind = calculateStopLoss entry' side ind)
  /\ (forall entry ind,
         lower (keltner ind) <> NaN -> lower (bollinger ind) <> NaN ->
         isLesserOf (calculateStopLoss entry long ind)
           (lower (keltner ind)) (lower (bollinger ind)))
  /\ (forall entry ind,
         upper (keltner ind) <> NaN -> upper (bollinger ind) <> NaN ->
         isGreaterOf (calculateStopLoss entry short ind)
           (upper (keltner ind)) (upper (bollinger ind))).
Proof.
  split; [reflexivity|].
  split; intros entry ind Hk Hb; simpl.
  - apply num_min_lesser; assumption.
  - apply num_max_greater; assumption.
Qed.

Lemma stop_loss_from_bands_witness :
  isLesserOf
    (calculateStopLoss (lit 2050) long
       (sampleSnapshot 2045 1985 2040 1990 120 up))
    (lit 1985) (lit 1990)
  /\ isGreaterOf
       (calculateStopLoss (lit 1950) short
          (sampleSnapshot 2045 1985 2040 1990 120 up))
       (lit 2045) (lit 2040).
Proof.
  destruct stop_loss_from_bands as (_ & Hlong & Hshort).
  split.
  - apply (Hlong (lit 2050) (sampleSnapshot 2045 1985 2040 1990 120 up));
      discriminate.
  - apply (Hshort (lit 1950) (sampleSnapshot 2045 1985 2040 1990 120 up));
      discriminate.
Defined.

(* ================================================================== *)
(** ** The entry evaluator *)
(* ================================================================== *)

(** Case analysis on the guards, in the order the code tests them. *)
Ltac guard_cases :=
  repeat match goal with
    | |- context [if negb ?c then _ else _] =>
        destruct c; cbn [negb andb]
    end.

Section EntryFacts.

Variable toFixed : number -> nat -> string.
Variable bull bear : list Candle -> MACDConfig -> bool.

Local Open Scope string_scope.

(** The long check signals exactly when no guard is unmet. *)
Lemma long_signal_bool price ind candles a ind5m :
  signal (checkLongEntry toFixed bull price ind candles a ind5m)
  = (price >? upper (keltner ind))%num
    && (price >? upper (bollinger ind))%num
    && bull candles fixedMACD
    && spec_auxLong a ind.
Proof.
  unfold checkLongEntry, spec_auxLong.
  destruct (price >? upper (keltner ind))%num; [|reflexivity].
  destruct (price >? upper (bollinger ind))%num; [|reflexivity].
  destruct (bull candles fixedMACD); [|reflexivity].
  destruct a; unfold spec_cciThresholdLong, spec_needsSuperTrend;
    match goal with |- context [(cci ind >? ?t)%num] =>
      destruct (cci ind >? t)%num end;
    try reflexivity;
    destruct (trend (supertrend ind)); reflexivity.
Qed.

Lemma short_signal_bool price ind candles a ind5m :
  signal (checkShortEntry toFixed bear price ind candles a ind5m)
  = (price <? lower (keltner ind))%num
    && (price <? lower (bollinger ind))%num
    && bear candles fixedMACD
    && spec_auxShort a ind.
Proof.
  unfold checkShortEntry, spec_auxShort.
  destruct (price <? lower (keltner ind))%num; [|reflexivity].
  destruct (price <? lower (bollinger ind))%num; [|reflexivity].
  destruct (bear candles fixedMACD); [|reflexivity].
  destruct a; unfold spec_cciThresholdShort, spec_needsSuperTrend;
    match goal with |- context [(cci ind <? ?t)%num] =>
      destruct (cci ind <? t)%num end;
    try reflexivity;
    destruct (trend (supertrend ind)); reflexivity.
Qed.

(** On a failure the reason is the one of the first unmet guard. *)
Lemma long_first_unmet price ind candles a ind5m g :
  spec_firstUnmetLong bull price ind candles a = Some g ->
  checkLongEntry toFixed bull price ind candles a ind5m
  = {| signal := false; reason := longReason toFixed g price ind a |}.
Proof.
  unfold spec_firstUnmetLong, checkLongEntry.
  destruct a;
    unfold spec_cciThresholdLong, spec_needsSuperTrend; cbv zeta;
    guard_cases;
    intro H; try discriminate H; injection H as <-; reflexivity.
Qed.

Lemma short_first_unmet price ind candles a ind5m g :
  spec_firstUnmetShort bear price ind candles a = Some g ->
  checkShortEntry toFixed bear price ind candles a ind5m
  = {| signal := false; reason := shortReason toFixed g price ind a |}.
Proof.
  unfold spec_firstUnmetShort, checkShortEntry.
  destruct a;
    unfold spec_cciThresholdShort, spec_needsSuperTrend; cbv zeta;
    guard_cases;
    intro H; try discriminate H; injection H as <-; reflexivity.
Qed.

(** The reasons of two different guards are different strings, whatever
    numbers they quote. *)
Lemma longReason_names_guard g g' price ind a price' ind' a' :
  longReason toFixed g price ind a = longReason toFixed g' price' ind' a' ->
  g = g'.
Proof.
  destruct g, g', a, a'; simpl; intro H;
    try reflexivity; discriminate H.
Qed.

Lemma shortReason_names_guard g g' price ind a price' ind' a' :
  shortReason toFixed g price ind a
  = shortReason toFixed g' price' ind' a' ->
  g = g'.
Proof.
  destruct g, g', a, a'; simpl; intro H;
    try reflexivity; discriminate H.
Qed.

End EntryFacts.

(** C3.  The long check signals exactly when the four guards hold: price
    strictly above the Keltner upper band, strictly above the Bollinger upper
    band, a bullish crossover of the candles under the fixed 12/26/9
    configuration, and the auxiliary filter of the tier; otherwise its reason
    is the one of the first unmet guard in that order, and of no other guard.
    In particular a failed Keltner breakout is reported as such whatever the
    other guards would say.  The short check mirrors it with the lower bands,
    the bearish crossover and the negated thresholds. *)
Theorem entry_guard_pipeline toFixed bull bear price ind candles a ind5m :
  let l := checkLongEntry toFixed bull price ind candles a ind5m in
  let s := checkShortEntry toFixed bear price ind candles a ind5m in
  (signal l = true <->
     (price >? upper (keltner ind))%num = true
     /\ (price >? upper (bollinger ind))%num = true
     /\ bull candles fixedMACD = true
     /\ spec_auxLong a ind = true)
  /\ (forall g,
         spec_firstUnmetLong bull price ind candles a = Some g ->
         signal l = false
         /\ reason l = longReason toFixed g price ind a
         /\ forall g', reason l = longReason toFixed g' price ind a -> g' = g)
  /\ ((price >? upper (keltner ind))%num = false ->
      reason l = longReason toFixed KeltnerBreakout price ind a)
  /\ (signal s = true <->
        (price <? lower (keltner ind))%num = true
        /\ (price <? lower (bollinger ind))%num = true
        /\ bear candles fixedMACD = true
        /\ spec_auxShort a ind = true)
  /\ (forall g,
         spec_firstUnmetShort bear price ind candles a = Some g ->
         signal s = false
         /\ reason s = shortReason toFixed g price ind a
         /\ forall g', reason s = shortReason toFixed g' price ind a -> g' = g)
  /\ ((price <? lower (keltner ind))%num = false ->
      reason s = shortReason toFixed KeltnerBreakout price ind a).
Proof.
  intros l s. subst l s.
  split.
  { rewrite long_signal_bool. rewrite !andb_true_iff. tauto. }
  split.
  { intros g Hg. rewrite (long_first_unmet _ _ _ _ _ _ ind5m g Hg). simpl.
    split; [reflexivity|]. split; [reflexivity|].
    intros g' H. symmetry. eapply longReason_names_guard. exact H. }
  split.
  { intro Hk.
    rewrite (long_first_unmet _ _ _ _ _ _ ind5m KeltnerBreakout);
      [reflexivity|].
    unfold spec_firstUnmetLong. rewrite Hk. reflexivity. }
  split.
  { rewrite short_signal_bool. rewrite !andb_true_iff. tauto. }
  split.
  { intros g Hg. rewrite (short_first_unmet _ _ _ _ _ _ ind5m g Hg). simpl.
    split; [reflexivity|]. split; [reflexivity|].
    intros g' H. symmetry. eapply shortReason_names_guard. exact H. }
  intro Hk.
  rewrite (short_first_unmet _ _ _ _ _ _ ind5m KeltnerBreakout);
    [reflexivity|].
  unfold spec_firstUnmetShort. rewrite Hk. reflexivity.
Qed.

(** Price 2042 is above the Bollinger upper band 2040 but not above the
    Keltner upper band 2045: no signal, and the reason is Keltner's. *)
Lemma entry_guard_pipeline_witness :
  signal (checkLongEntry sampleToFixed (crossoverAlways true) (lit 2042)
            (sampleSnapshot 2045 1985 2040 1990 120 up) [] Level3 None)
  = false
  /\ reason (checkLongEntry sampleToFixed (crossoverAlways true) (lit 2042)
               (sampleSnapshot 2045 1985 2040 1990 120 up) [] Level3 None)
     = longReason sampleToFixed KeltnerBreakout (lit 2042)
         (sampleSnapshot 2045 1985 2040 1990 120 up) Level3.
Proof.
  destruct (entry_guard_pipeline sampleToFixed (crossoverAlways true)
              (crossoverAlways true) (lit 2042)
              (sampleSnapshot 2045 1985 2040 1990 120 up) [] Level3 None)
    as (_ & Hfirst & Hk & _).
  split.
  - apply (Hfirst KeltnerBreakout). reflexivity.
  - apply Hk. reflexivity.
Defined.

Lemma num_gtb_weaken (x : number) (a b : Q) :
  b <= a -> (x >? lit a)%num = true -> (x >? lit b)%num = true.
Proof.
  intro Hab. destruct x; simpl; intro H; try discriminate; try reflexivity.
  qsolve.
Qed.

Lemma num_ltb_weaken (x : number) (a b : Q) :
  a <= b -> (x <? lit a)%num = true -> (x <? lit b)%num = true.
Proof.
  intro Hab. destruct x; simpl; intro H; try discriminate; try reflexivity.
  qsolve.
Qed.

(** A looser tier accepts whatever a stricter tier accepts. *)
Lemma spec_auxLong_looser a b ind :
  (a = Level1 \/ (a = Level2 /\ b <> Level1) \/ b = Level3) ->
  spec_auxLong a ind = true -> spec_auxLong b ind = true.
Proof.
  unfold spec_auxLong. intros Hab H.
  apply andb_true_iff in H. destruct H as [Hc Ht].
  apply andb_true_iff.
  destruct a, b; simpl in *;
    try (exfalso; destruct Hab as [?|[[? ?]|?]]; congruence);
    (split; [|try exact Ht; reflexivity]);
    first [ exact Hc | revert Hc; apply num_gtb_weaken; lra ].
Qed.

Lemma spec_auxShort_looser a b ind :
  (a = Level1 \/ (a = Level2 /\ b <> Level1) \/ b = Level3) ->
  spec_auxShort a ind = true -> spec_auxShort b ind = true.
Proof.
  unfold spec_auxShort. intros Hab H.
  apply andb_true_iff in H. destruct H as [Hc Ht].
  apply andb_true_iff.
  destruct a, b; simpl in *;
    try (exfalso; destruct Hab as [?|[[? ?]|?]]; congruence);
    (split; [|try exact Ht; reflexivity]);
    first [ exact Hc | revert Hc; apply num_ltb_weaken; lra ].
Qed.

(** C4.  Tier monotonicity: on the same price, snapshot and candles, a
    signal at tier 1 is a signal at tiers 2 and 3, and a signal at tier 2 is
    a signal at tier 3, for the long and the short check alike.  The converse
    fails: wherever the crossover guard passes, some snapshot signals at tier
    2 but not at tier 1, and some at tier 3 but not at tier 2. *)
Theorem tier_monotonicity toFixed bull bear price ind candles ind5m :
  let long_at a :=
    signal (checkLongEntry toFixed bull price ind candles a ind5m) in
  let short_at a :=
    signal (checkShortEntry toFixed bear price ind candles a ind5m) in
  (long_at Level1 = true -> long_at Level2 = true /\ long_at Level3 = true)
  /\ (long_at Level2 = true -> long_at Level3 = true)
  /\ (short_at Level1 = true ->
      short_at Level2 = true /\ short_at Level3 = true)
  /\ (short_at Level2 = true -> short_at Level3 = true)
  /\ (bull candles fixedMACD = true ->
      exists price' ind1 ind2,
        let at' i a :=
          signal (checkLongEntry toFixed bull price' i candles a ind5m) in
        (at' ind1 Level2 = true /\ at' ind1 Level1 = false)
        /\ (at' ind2 Level3 = true /\ at' ind2 Level2 = false))
  /\ (bear candles fixedMACD = true ->
      exists price' ind1 ind2,
        let at' i a :=
          signal (checkShortEntry toFixed bear price' i candles a ind5m) in
        (at' ind1 Level2 = true /\ at' ind1 Level1 = false)
        /\ (at' ind2 Level3 = true /\ at' ind2 Level2 = false)).
Proof.
  intros long_at short_at. subst long_at short_at. cbv beta.
  rewrite !long_signal_bool, !short_signal_bool.
  assert (L : forall a b,
             (a = Level1 \/ (a = Level2 /\ b <> Level1) \/ b = Level3) ->
             (price >? upper (keltner ind))%num
             && (price >? upper (bollinger ind))%num
             && bull candles fixedMACD && spec_auxLong a ind = true ->
             (price >? upper (keltner ind))%num
             && (price >? upper (bollinger ind))%num
             && bull candles fixedMACD && spec_auxLong b ind = true).
  { intros a b Hab H. apply andb_true_iff in H. destruct H as [H1 H2].
    apply andb_true_iff. split; [exact H1|].
    exact (spec_auxLong_looser a b ind Hab H2). }
  assert (S : forall a b,
             (a = Level1 \/ (a = Level2 /\ b <> Level1) \/ b = Level3) ->
             (price <? lower (keltner ind))%num
             && (price <? lower (bollinger ind))%num
             && bear candles fixedMACD && spec_auxShort a ind = true ->
             (price <? lower (keltner ind))%num
             && (price <? lower (bollinger ind))%num
             && bear candles fixedMACD && spec_auxShort b ind = true).
  { intros a b Hab H. apply andb_true_iff in H. destruct H as [H1 H2].
    apply andb_true_iff. split; [exact H1|].
    exact (spec_auxShort_looser a b ind Hab H2). }
  split; [intro H; split; eapply L; eauto|].
  split; [intro H; eapply L; eauto|].
  split; [intro H; split; eapply S; eauto|].
  split; [intro H; eapply S; eauto|].
  split.
  - intro Hb.
    exists (lit 2050), (sampleSnapshot 2045 1985 2040 1990 80 up),
      (sampleSnapshot 2045 1985 2040 1990 20 up).
    cbv zeta beta. rewrite !long_signal_bool, Hb. repeat split.
  - intro Hb.
    exists (lit 1950), (sampleSnapshot 2045 1985 2040 1990 (-80) down),
      (sampleSnapshot 2045 1985 2040 1990 (-20) down).
    cbv zeta beta. rewrite !short_signal_bool, Hb. repeat split.
Qed.

(** CCI 120 with SuperTrend up signals long at tier 1, hence at every tier. *)
Lemma tier_monotonicity_witness :
  signal (checkLongEntry sampleToFixed (crossoverAlways true) (lit 2050)
            (sampleSnapshot 2045 1985 2040 1990 120 up) [] Level2 None)
  = true
  /\ signal (checkLongEntry sampleToFixed (crossoverAlways true) (lit 2050)
               (sampleSnapshot 2045 1985 2040 1990 120 up) [] Level3 None)
     = true.
Proof.
  apply (tier_monotonicity sampleToFixed (crossoverAlways true)
           (crossoverAlways false) (lit 2050)
           (sampleSnapshot 2045 1985 2040 1990 120 up) [] None).
  reflexivity.
Defined.

(* ================================================================== *)
(** ** The snapshot builder *)
(* ================================================================== *)

Lemma returnsAlways_ret {A} (a : A) : returnsAlways (ret a) a.
Proof. intro w. exists w. reflexivity. Qed.

Lemma returnsAlways_bind {A B} (m : M A) (k : A -> M B) a b :
  returnsAlways m a -> returnsAlways (k a) b -> returnsAlways (bind m k) b.
Proof.
  intros Hm Hk w. unfold bind.
  destruct (Hm w) as [w1 ->]. destruct (Hk w1) as [w2 ->].
  exists w2. reflexivity.
Qed.

Lemma returnsAlways_read {B} (k : nat -> M B) b :
  (forall n, returnsAlways (k n) b) ->
  returnsAlways (bind readSignalCheckCount k) b.
Proof.
  intros Hk w. unfold bind, readSignalCheckCount.
  destruct (Hk (signalCheckCount w) w) as [w' ->].
  exists w'. reflexivity.
Qed.

Lemma returnsAlways_consoleWrite l : returnsAlways (consoleWrite l) tt.
Proof. intro w. eexists. reflexivity. Qed.

Lemma returnsAlways_incrSignalCheckCount :
  returnsAlways incrSignalCheckCount tt.
Proof. intro w. eexists. reflexivity. Qed.

Lemma returnsAlways_incrIndicatorFailCount :
  returnsAlways incrIndicatorFailCount tt.
Proof. intro w. eexists. reflexivity. Qed.

Lemma returnsAlways_incrLongCheckCount : returnsAlways incrLongCheckCount tt.
Proof. intro w. eexists. reflexivity. Qed.

Lemma returnsAlways_incrShortCheckCount : returnsAlways incrShortCheckCount tt.
Proof. intro w. eexists. reflexivity. Qed.

Lemma returnsAlways_value {A} (m : M A) a w :
  returnsAlways m a -> fst (m w) = Ret a.
Proof. intro H. destruct (H w) as [w' ->]. reflexivity. Qed.

Lemma yieldsAlways_bind {A B} (m : M A) (k : A -> M B) a o :
  yieldsAlways m (Ret a) -> yieldsAlways (k a) o ->
  yieldsAlways (bind m k) o.
Proof.
  intros Hm Hk w. unfold bind.
  destruct (Hm w) as [w1 ->]. destruct (Hk w1) as [w2 ->].
  exists w2. reflexivity.
Qed.

Lemma yieldsAlways_throw {A B} (m : M A) (k : A -> M B) e :
  yieldsAlways m (Throw e) -> yieldsAlways (bind m k) (Throw e).
Proof.
  intros Hm w. unfold bind. destruct (Hm w) as [w1 ->].
  exists w1. reflexivity.
Qed.

Lemma yieldsAlways_value {A} (m : M A) o w :
  yieldsAlways m o -> fst (m w) = o.
Proof. intro H. destruct (H w) as [w' ->]. reflexivity. Qed.

(** Run the catch block to its end, by the cases of its test. *)
Ltac run_catch :=
  cbn;
  repeat match goal with
    | |- context [includes ?m ?n] => destruct (includes m n); cbn
    | |- context [if negb ?b then _ else _] => destruct b; cbn
    end.

(** Close a goal on how a run of the snapshot builder ends. *)
Ltac fixed_done :=
  run_catch;
  eexists;
  (split;
   [ intro w; eexists; reflexivity
   | let Hc := fresh "Hc" in
     let Hd := fresh "Hd" in
     intro Hc;
     first [ eexists; reflexivity
           | exfalso; destruct Hc as [? Hd]; discriminate Hd ] ]).

Section SnapshotFacts.

Variable getLatestKeltnerChannel :
  list Candle -> KeltnerChannelConfig -> Outcome (option ChannelBands).
Variable getLatestBollingerBands :
  list Candle -> BollingerBandsConfig -> Outcome (option ChannelBands).
Variable getLatestMACD :
  list Candle -> MACDConfig -> Outcome (option MACDValue).
Variable getLatestCCI :
  list Candle -> CCIConfig -> Outcome (option number).
Variable getLatestSuperTrend :
  list Candle -> SuperTrendConfig -> Outcome (option SuperTrendValue).
Variable calculateATR :
  list number -> list number -> list number -> number ->
  Outcome (list number).
Variable config : TradingConfig.

Local Abbreviation snapshot :=
  (calculateIndicators getLatestKeltnerChannel getLatestBollingerBands
     getLatestMACD getLatestCCI getLatestSuperTrend calculateATR config).

Local Abbreviation completes :=
  (catchCompletes getLatestKeltnerChannel getLatestBollingerBands
     getLatestMACD getLatestCCI getLatestSuperTrend calculateATR config).

(** How the snapshot builder ends is fixed by the candles: with the same
    value, or the same thrown value, from every state.  It returns whenever
    the catch block can inspect what the adapters throw. *)
Lemma calculateIndicators_fixed candles :
  exists o,
    yieldsAlways (snapshot candles) o
    /\ (completes candles -> exists v, o = Ret v).
Proof.
  unfold calculateIndicators.
  destruct (List.length candles <? 35)%nat.
  { exists (Ret None). split; [apply returnsAlways_ret | eauto]. }
  unfold catchCompletes, adapterThrows, inspectable.
  unfold yieldsAlways, tryCatch, bind, call, ret.
  destruct (getLatestKeltnerChannel candles (keltnerConfig config))
    as [k|e1]; [| destruct e1; fixed_done ].
  destruct (getLatestBollingerBands candles (bollingerConfig config))
    as [b|e2]; [| destruct e2; fixed_done ].
  destruct (getLatestMACD candles (macdConfig config))
    as [m|e3]; [| destruct e3; fixed_done ].
  destruct (getLatestCCI candles (cciConfig config))
    as [c|e4]; [| destruct e4; fixed_done ].
  destruct (getLatestSuperTrend candles (supertrendConfig config))
    as [s|e5]; [| destruct e5; fixed_done ].
  destruct (atrSeries calculateATR config candles)
    as [a|e6]; [| destruct e6; fixed_done ].
  destruct k, b, m, c, s, a; fixed_done.
Qed.

(** A snapshot is returned only on at least 35 candles and when every
    adapter returned a value; its fields are those values and the last
    element of the ATR series. *)
Lemma calculateIndicators_some candles w snap :
  fst (snapshot candles w) = Ret (Some snap) ->
  (35 <= List.length candles)%nat
  /\ getLatestKeltnerChannel candles (keltnerConfig config)
     = Ret (Some (keltner snap))
  /\ getLatestBollingerBands candles (bollingerConfig config)
     = Ret (Some (bollinger snap))
  /\ getLatestMACD candles (macdConfig config) = Ret (Some (macd snap))
  /\ getLatestCCI candles (cciConfig config) = Ret (Some (cci snap))
  /\ getLatestSuperTrend candles (supertrendConfig config)
     = Ret (Some (supertrend snap))
  /\ exists a rest,
       atrSeries calculateATR config candles = Ret (a :: rest)
       /\ atr snap = last (a :: rest) a.
Proof.
  unfold calculateIndicators.
  destruct (List.length candles <? 35)%nat eqn:E; [discriminate|].
  apply Nat.ltb_ge in E.
  unfold tryCatch, bind, call, ret.
  destruct (getLatestKeltnerChannel candles (keltnerConfig config))
    as [k|e1]; [| destruct e1; run_catch; discriminate ].
  destruct (getLatestBollingerBands candles (bollingerConfig config))
    as [b|e2]; [| destruct e2; run_catch; discriminate ].
  destruct (getLatestMACD candles (macdConfig config))
    as [m|e3]; [| destruct e3; run_catch; discriminate ].
  destruct (getLatestCCI candles (cciConfig config))
    as [c|e4]; [| destruct e4; run_catch; discriminate ].
  destruct (getLatestSuperTrend candles (supertrendConfig config))
    as [s|e5]; [| destruct e5; run_catch; discriminate ].
  destruct (atrSeries calculateATR config candles)
    as [a|e6]; [| destruct e6; run_catch; discriminate ].
  destruct k, b, m, c, s, a; cbn; try discriminate.
  intro H. injection H as <-. cbn [keltner bollinger macd cci supertrend atr].
  repeat (split; [first [exact E | reflexivity]|]).
  eexists. eexists. split; reflexivity.
Qed.

(** C5 (amended).  The snapshot builder returns no snapshot on fewer than
    35 candles.  When the catch block can inspect what the adapters throw,
    it always returns, and it returns no snapshot when an adapter returns
    [null] or the ATR series is empty, and when an adapter throws.  A
    snapshot it returns has every field taken from an adapter's value. *)
Theorem snapshot_all_or_nothing candles w :
  let K := getLatestKeltnerChannel candles (keltnerConfig config) in
  let B := getLatestBollingerBands candles (bollingerConfig config) in
  let M := getLatestMACD candles (macdConfig config) in
  let C := getLatestCCI candles (cciConfig config) in
  let S := getLatestSuperTrend candles (supertrendConfig config) in
  let A := atrSeries calculateATR config candles in
  (completes candles -> exists v w', snapshot candles w = (Ret v, w'))
  /\ ((List.length candles < 35)%nat ->
      snapshot candles w = (Ret None, w))
  /\ (completes candles ->
      K = Ret None \/ B = Ret None \/ M = Ret None \/ C = Ret None
      \/ S = Ret None \/ A = Ret [] ->
      fst (snapshot candles w) = Ret None)
  /\ (completes candles ->
      (exists e, K = Throw e) \/ (exists e, B = Throw e)
      \/ (exists e, M = Throw e) \/ (exists e, C = Throw e)
      \/ (exists e, S = Throw e) \/ (exists e, A = Throw e) ->
      fst (snapshot candles w) = Ret None)
  /\ (forall snap,
         fst (snapshot candles w) = Ret (Some snap) ->
         (35 <= List.length candles)%nat
         /\ K = Ret (Some (keltner snap))
         /\ B = Ret (Some (bollinger snap))
         /\ M = Ret (Some (macd snap))
         /\ C = Ret (Some (cci snap))
         /\ S = Ret (Some (supertrend snap))
         /\ exists a rest,
              A = Ret (a :: rest) /\ atr snap = last (a :: rest) a).
Proof.
  intros K B M C S A. subst K B M C S A.
  destruct (calculateIndicators_fixed candles) as (o & Ho & Hret).
  pose proof (yieldsAlways_value _ _ w Ho) as Hfst.
  assert (Hnone : forall P : Prop,
             (forall snap, fst (snapshot candles w) = Ret (Some snap) ->
                           P -> False) ->
             completes candles -> P ->
             fst (snapshot candles w) = Ret None).
  { intros P HP Hc p. destruct (Hret Hc) as [v Hv]. rewrite Hv in Hfst.
    rewrite Hfst. destruct v as [snap|]; [|reflexivity].
    exfalso. exact (HP snap Hfst p). }
  split.
  { intro Hc. destruct (Hret Hc) as [v Hv].
    destruct (Ho w) as [w' Hw]. exists v, w'. rewrite Hw, Hv. reflexivity. }
  split.
  { intro Hlen. apply Nat.ltb_lt in Hlen.
    unfold calculateIndicators. rewrite Hlen. reflexivity. }
  split.
  { apply Hnone. intros snap Hs.
    destruct (calculateIndicators_some candles w snap Hs)
      as (_ & HK & HB & HM & HC & HS & a & rest & HA & _).
    intros [H|[H|[H|[H|[H|H]]]]]; congruence. }
  split.
  { apply Hnone. intros snap Hs.
    destruct (calculateIndicators_some candles w snap Hs)
      as (_ & HK & HB & HM & HC & HS & a & rest & HA & _).
    intros [[e H]|[[e H]|[[e H]|[[e H]|[[e H]|[e H]]]]]]; congruence. }
  intros snap Hs. exact (calculateIndicators_some candles w snap Hs).
Qed.

End SnapshotFacts.

(* ================================================================== *)
(** ** The signal generator *)
(* ================================================================== *)

Section SignalFacts.

Variable toFixed : number -> nat -> string.
Variable getLatestKeltnerChannel :
  list Candle -> KeltnerChannelConfig -> Outcome (option ChannelBands).
Variable getLatestBollingerBands :
  list Candle -> BollingerBandsConfig -> Outcome (option ChannelBands).
Variable getLatestMACD :
  list Candle -> MACDConfig -> Outcome (option MACDValue).
Variable getLatestCCI :
  list Candle -> CCIConfig -> Outcome (option number).
Variable getLatestSuperTrend :
  list Candle -> SuperTrendConfig -> Outcome (option SuperTrendValue).
Variable calculateATR :
  list number -> list number -> list number -> number ->
  Outcome (list number).
Variable isMACDBullishCrossover : list Candle -> MACDConfig -> bool.
Variable isMACDBearishCrossover : list Candle -> MACDConfig -> bool.
Variable config : TradingConfig.

Local Abbreviation generate :=
  (generateSignal toFixed getLatestKeltnerChannel getLatestBollingerBands
     getLatestMACD getLatestCCI getLatestSuperTrend calculateATR
     isMACDBullishCrossover isMACDBearishCrossover config).

Local Abbreviation snapshot :=
  (calculateIndicators getLatestKeltnerChannel getLatestBollingerBands
     getLatestMACD getLatestCCI getLatestSuperTrend calculateATR config).

Local Abbreviation completes :=
  (catchCompletes getLatestKeltnerChannel getLatestBollingerBands
     getLatestMACD getLatestCCI getLatestSuperTrend calculateATR config).

Local Abbreviation completes5m :=
  (confirmationCompletes getLatestKeltnerChannel getLatestBollingerBands
     getLatestMACD getLatestCCI getLatestSuperTrend calculateATR config).

(** On an empty candle list the signal is the fallback, stamped with the
    time of the call. *)
Lemma generateSignal_empty now candles5m :
  returnsAlways (generate now [] candles5m)
    {| sigType := type_none; sigReason := "No candle data";
       sigTimestamp := now; sigPrice := lit 0; sigIndicators := None |}.
Proof.
  unfold generateSignal.
  eapply returnsAlways_bind;
    [apply returnsAlways_incrSignalCheckCount | apply returnsAlways_ret].
Qed.

(** The snapshot of the confirmation candles ends the same way from every
    state. *)
Lemma confirmation_fixed candles5m :
  exists o,
    yieldsAlways
      (match candles5m with
       | Some ((_ :: _) as c5) => snapshot c5
       | _ => ret None
       end) o
    /\ (completes5m candles5m -> exists v, o = Ret v).
Proof.
  destruct candles5m as [[|c r]|].
  - exists (Ret None). split; [apply returnsAlways_ret | eauto].
  - apply calculateIndicators_fixed.
  - exists (Ret None). split; [apply returnsAlways_ret | eauto].
Qed.

(** On a non-empty candle list the call ends the same way, with the same
    signal or the same thrown value, at every time of call and from every
    state of the counters and the console; it returns a signal whenever the
    catch block can inspect what the adapters throw. *)
Lemma generateSignal_fixed candles1m candles5m :
  candles1m <> [] ->
  exists o,
    (forall now, yieldsAlways (generate now candles1m candles5m) o)
    /\ (completes candles1m -> completes5m candles5m ->
        exists sig, o = Ret sig).
Proof.
  intro Hne. destruct candles1m as [|first rest]; [congruence|]. clear Hne.
  destruct (calculateIndicators_fixed getLatestKeltnerChannel
              getLatestBollingerBands getLatestMACD getLatestCCI
              getLatestSuperTrend calculateATR config (first :: rest))
    as (o1 & H1 & R1).
  destruct (confirmation_fixed candles5m) as (o5 & H5 & R5).
  unfold generateSignal.
  destruct o1 as [[ind|]|e1].
  - destruct o5 as [v5|e5].
    + destruct (signal (checkLongEntry toFixed isMACDBullishCrossover
                          (close (last (first :: rest) first)) ind
                          (first :: rest) (aggressiveness (strategy config))
                          v5)) eqn:EL;
        [| destruct (signal (checkShortEntry toFixed isMACDBearishCrossover
                               (close (last (first :: rest) first)) ind
                               (first :: rest)
                               (aggressiveness (strategy config)) v5))
             eqn:ES ];
        eexists; (split; [intro now | intros _ _; eexists; reflexivity]);
        (eapply yieldsAlways_bind;
           [apply returnsAlways_incrSignalCheckCount|]);
        (eapply yieldsAlways_bind; [exact H1|]);
        (eapply yieldsAlways_bind; [exact H5|]);
        cbv zeta; rewrite ?EL, ?ES.
      * apply returnsAlways_read. intro n.
        eapply returnsAlways_bind; [apply returnsAlways_consoleWrite|].
        eapply returnsAlways_bind; [apply returnsAlways_incrLongCheckCount|].
        apply returnsAlways_ret.
      * apply returnsAlways_read. intro n.
        eapply returnsAlways_bind; [apply returnsAlways_consoleWrite|].
        eapply returnsAlways_bind;
          [apply returnsAlways_incrShortCheckCount|].
        apply returnsAlways_ret.
      * apply returnsAlways_ret.
    + exists (Throw e5). split.
      * intro now.
        eapply yieldsAlways_bind;
          [apply returnsAlways_incrSignalCheckCount|].
        eapply yieldsAlways_bind; [exact H1|].
        apply yieldsAlways_throw. exact H5.
      * intros _ Hc. destruct (R5 Hc) as [v Hv]. discriminate Hv.
  - eexists. split; [intro now | intros _ _; eexists; reflexivity].
    eapply yieldsAlways_bind; [apply returnsAlways_incrSignalCheckCount|].
    eapply yieldsAlways_bind; [exact H1|].
    eapply returnsAlways_bind; [apply returnsAlways_incrIndicatorFailCount|].
    apply returnsAlways_ret.
  - exists (Throw e1). split.
    + intro now.
      eapply yieldsAlways_bind; [apply returnsAlways_incrSignalCheckCount|].
      apply yieldsAlways_throw. exact H1.
    + intros Hc _. destruct (R1 Hc) as [v Hv]. discriminate Hv.
Qed.

(** C9.  On a non-empty 1-minute candle list the returned signal is the
    same for any two calls with the same candle lists, whatever the counters
    and the console hold and whatever the clock reads; in particular a
    second call on the state the first one left returns the signal of the
    first.  A signal is returned whenever the catch block can inspect what
    the adapters throw.  On an empty list the signal is the fallback and
    only its timestamp, the time of the call, can differ. *)
Theorem generateSignal_deterministic
    candles1m candles5m now1 now2 w1 w2 :
  (candles1m <> [] ->
   fst (generate now1 candles1m candles5m w1)
   = fst (generate now2 candles1m candles5m w2)
   /\ fst (generate now2 candles1m candles5m
             (snd (generate now1 candles1m candles5m w1)))
      = fst (generate now1 candles1m candles5m w1)
   /\ (completes candles1m -> completes5m candles5m ->
       exists sig, fst (generate now1 candles1m candles5m w1) = Ret sig))
  /\ fst (generate now1 [] candles5m w1)
     = Ret {| sigType := type_none; sigReason := "No candle data";
              sigTimestamp := now1; sigPrice := lit 0;
              sigIndicators := None |}.
Proof.
  split.
  - intro Hne.
    destruct (generateSignal_fixed candles1m candles5m Hne)
      as (o & Ho & Hret).
    rewrite !(yieldsAlways_value _ o _ (Ho _)).
    split; [reflexivity|]. split; [reflexivity|].
    exact Hret.
  - apply returnsAlways_value. apply generateSignal_empty.
Qed.

End SignalFacts.

(* ================================================================== *)
(** ** The properties on sample inputs *)
(* ================================================================== *)

(** A CCI adapter that throws an [Error]: no snapshot, and nothing is
    thrown further. *)
Lemma snapshot_all_or_nothing_witness :
  fst (calculateIndicators
         (constAdapter (Ret (Some sampleBandsKC)))
         (constAdapter (Ret (Some sampleBandsBB)))
         (constAdapter (Ret (Some sampleMACD)))
         (constAdapter (Throw (ErrorObject "CCI period must be positive")))
         (constAdapter (Ret (Some sampleSuperTrend)))
         (constATR (Ret [lit 4; lit 5]))
         (sampleConfig Level1 1) sampleCandles freshWorld)
  = Ret None.
Proof.
  apply snapshot_all_or_nothing.
  - eexists. reflexivity.
  - right; right; right; left. eexists. reflexivity.
Defined.

(** A CCI adapter that throws a value [String(...)] cannot render: the
    catch block throws in its turn, and that reaches the caller. *)
Lemma unrenderable_throw_reaches_the_caller :
  calculateIndicators
    (constAdapter (Ret (Some sampleBandsKC)))
    (constAdapter (Ret (Some sampleBandsBB)))
    (constAdapter (Ret (Some sampleMACD)))
    (constAdapter
       (Throw (Uninspectable
                 (ErrorObject "Cannot convert object to primitive value"))))
    (constAdapter (Ret (Some sampleSuperTrend)))
    (constATR (Ret [lit 4; lit 5]))
    (sampleConfig Level1 1) sampleCandles freshWorld
  = (Throw (ErrorObject "Cannot convert object to primitive value"),
     freshWorld).
Proof. reflexivity. Qed.

(** An unexpected error is written to the console, an insufficient-data one
    is not; both give no snapshot. *)
Example calculateIndicators_logs_unexpected_errors :
  calculateIndicators
    (constAdapter (Ret (Some sampleBandsKC)))
    (constAdapter (Ret (Some sampleBandsBB)))
    (constAdapter (Ret (Some sampleMACD)))
    (constAdapter (Throw (ErrorObject "CCI period must be positive")))
    (constAdapter (Ret (Some sampleSuperTrend)))
    (constATR (Ret [lit 4; lit 5]))
    (sampleConfig Level1 1) sampleCandles freshWorld
  = (Ret None,
     {| signalCheckCount := 0; indicatorFailCount := 0; longCheckCount := 0;
        shortCheckCount := 0;
        console :=
          [ConsoleError "[Strategy] Error calculating indicators:"
             (ErrorObject "CCI period must be positive")] |})
  /\ calculateIndicators
       (constAdapter (Ret (Some sampleBandsKC)))
       (constAdapter (Ret (Some sampleBandsBB)))
       (constAdapter (Ret (Some sampleMACD)))
       (constAdapter (Throw (ErrorObject "Insufficient data for CCI")))
       (constAdapter (Ret (Some sampleSuperTrend)))
       (constATR (Ret [lit 4; lit 5]))
       (sampleConfig Level1 1) sampleCandles freshWorld
     = (Ret None, freshWorld).
Proof. split; reflexivity. Qed.

(** Two calls on the same candles, at different times and on different
    states of the instance, return the same signal. *)
Lemma generateSignal_deterministic_witness :
  fst (sampleGenerate (constAdapter (Ret (Some (lit 120)))) (lit 1000)
         sampleCandles None freshWorld)
  = fst (sampleGenerate (constAdapter (Ret (Some (lit 120)))) (lit 2000)
           sampleCandles None usedWorld).
Proof.
  unfold sampleGenerate.
  apply generateSignal_deterministic. discriminate.
Defined.

(** The call does change the instance and the console: the first signal of a
    fresh instance is a long one, counted and logged as check 1. *)
Example generateSignal_counts_and_logs :
  match sampleGenerate (constAdapter (Ret (Some (lit 120)))) (lit 1000)
          sampleCandles None freshWorld with
  | (Ret sig, w) =>
      sigType sig = type_long
      /\ sigPrice sig = lit 2050
      /\ sigTimestamp sig = lit 60000
      /\ signalCheckCount w = 1%nat
      /\ longCheckCount w = 1%nat
      /\ List.length (console w) = 1%nat
  | (Throw _, _) => False
  end.
Proof. vm_compute. repeat split. Qed.

(* ================================================================== *)
(** ** More on the trailing stop *)
(* ================================================================== *)



(** The extreme a call returns, read off the carried one. *)
Lemma returned_extreme config entry cur hi lo sl side atr :
  extremeOf side (calculateTrailingStop config entry cur hi lo sl side atr)
  = match carriedOf side hi lo, side with
    | None, _ => cur
    | Some h, long => num_max h cur
    | Some l, short => num_min l cur
    end.
Proof.
  unfold calculateTrailingStop, extremeOf, carriedOf.
  destruct side;
    match goal with |- context [if ?c then _ else _] => destruct c end;
    simpl; match goal with |- context [match ?o with _ => _ end] =>
             destruct o end; reflexivity.
Qed.

Lemma returned_extreme_bounds config entry p hi lo sl side atr :
  isFiniteOpt (carriedOf side hi lo) ->
  let r := calculateTrailingStop config entry (Fin p) hi lo sl side atr in
  isFinite (extremeOf side r)
  /\ noWorse side (Fin p) (extremeOf side r)
  /\ (forall h, carriedOf side hi lo = Some h ->
                noWorse side h (extremeOf side r)).
Proof.
  intros Hc r. subst r. rewrite returned_extreme.
  destruct side; simpl in *.
  - destruct hi as [[h| | |]|]; try contradiction; simpl;
      (split; [exact I|]); split; try qsolve;
      intros h0 Hh; try discriminate; injection Hh as <-; simpl; qsolve.
  - destruct lo as [[l| | |]|]; try contradiction; simpl;
      (split; [exact I|]); split; try qsolve;
      intros h0 Hh; try discriminate; injection Hh as <-; simpl; qsolve.
Qed.

Lemma noWorse_trans side a b c :
  noWorse side a b -> noWorse side b c -> noWorse side a c.
Proof.
  destruct side; simpl; intros H1 H2; eapply num_leb_trans; eassumption.
Qed.

Lemma carried_after config entry cur hi lo sl side atr :
  carriedOf side
    (Some (highestPrice
             (calculateTrailingStop config entry cur hi lo sl side atr)))
    (Some (lowestPrice
             (calculateTrailingStop config entry cur hi lo sl side atr)))
  = Some (extremeOf side
            (calculateTrailingStop config entry cur hi lo sl side atr)).
Proof. destruct side; reflexivity. Qed.

(** X2.  Along a run the tracked extreme only improves: the highs of a long
    never decrease and the lows of a short never increase from one call to
    any later one, each returned extreme is at least as favourable as the
    price of its tick, and none is worse than the extreme the run started
    from.  Active or not, and whatever the ATR, the extreme is updated. *)
Theorem extremes_only_improve config entry sl side hi lo ticks :
  isFiniteOpt (carriedOf side hi lo) ->
  Forall (fun t => isFinite (tickPrice t)) ticks ->
  StronglySorted (noWorse side)
    (map (extremeOf side) (trail config entry sl side hi lo ticks))
  /\ Forall2 (fun t r => noWorse side (tickPrice t) (extremeOf side r))
       ticks (trail config entry sl side hi lo ticks)
  /\ (forall h, carriedOf side hi lo = Some h ->
                Forall (fun r => noWorse side h (extremeOf side r))
                  (trail config entry sl side hi lo ticks)).
Proof.
  intros Hc Hf. revert hi lo Hc.
  induction Hf as [|t rest Ht Hrest IH]; intros hi lo Hc.
  - simpl. repeat split; constructor.
  - destruct t as [tp ta]. simpl in Ht.
    destruct tp as [p| | |]; try contradiction.
    cbn [trail tickPrice tickAtr map].
    destruct (returned_extreme_bounds config entry p hi lo sl side ta Hc)
      as (Hfin & Hprice & Hprev).
    set (r := calculateTrailingStop config entry (Fin p) hi lo sl side ta)
      in *.
    specialize (IH (Some (highestPrice r)) (Some (lowestPrice r))).
    unfold r in IH. rewrite carried_after in IH. fold r in IH.
    destruct (IH Hfin) as (Hsorted & Hticks & Hfrom).
    specialize (Hfrom _ eq_refl).
    split; [|split].
    + constructor; [exact Hsorted|].
      rewrite Forall_map. exact Hfrom.
    + constructor; assumption.
    + intros h Hh. constructor; [exact (Hprev h Hh)|].
      eapply Forall_impl; [|exact Hfrom].
      intros r' Hr'. eapply noWorse_trans; [exact (Hprev h Hh)|exact Hr'].
Qed.

Lemma extremes_only_improve_witness :
  StronglySorted (noWorse short)
    (map (extremeOf short)
       (trail (sampleConfig Level1 1) (lit 100) (lit 110) short None None
          shortTicks)).
Proof.
  apply (extremes_only_improve (sampleConfig Level1 1) (lit 100) (lit 110)
           short None None shortTicks).
  - exact I.
  - repeat constructor.
Defined.

Lemma active_profit_positive config e p s hi lo side atr :
  active (calculateTrailingStop config (Fin e) (Fin p) hi lo (Fin s) side atr)
  = true ->
  Qabs (e - s) <= profitQ side e p /\ 0 < profitQ side e p.
Proof.
  rewrite active_is_profit_test. unfold profitInR, profitQ.
  destruct side; cbn [num_sub num_add num_opp num_abs];
    apply geb_div_one; apply Qabs_nonneg.
Qed.

(** X3.  With a non-negative trailing offset a returned stop is never
    beyond the tracked extreme: at or below the returned high for a long, at
    or above the returned low for a short.  Together with the breakeven lock
    the stop of an active tick lies between the entry price and the
    extreme. *)
Theorem stop_not_beyond_extreme config e p s side hi lo a x :
  isFinite (trailingDistance (strategy config)) ->
  isFiniteOpt (carriedOf side hi lo) ->
  num_leb (lit 0) (Fin a * trailingDistance (strategy config))%num = true ->
  trailingStop
    (calculateTrailingStop config (Fin e) (Fin p) hi lo (Fin s) side (Fin a))
  = Some x ->
  noWorse side x
    (extremeOf side
       (calculateTrailingStop config (Fin e) (Fin p) hi lo (Fin s) side
          (Fin a)))
  /\ noWorse side (Fin e) x.
Proof.
  intros Hd Hc Hoff Hx.
  destruct (trailingDistance (strategy config)) as [d| | |] eqn:Ed;
    try contradiction.
  simpl in Hoff.
  assert (Hact : active (calculateTrailingStop config (Fin e) (Fin p) hi lo
                           (Fin s) side (Fin a)) = true).
  { destruct (active (calculateTrailingStop config (Fin e) (Fin p) hi lo
                        (Fin s) side (Fin a))) eqn:E; [reflexivity|].
    apply (proj2 (stop_iff_active config (Fin e) (Fin p) hi lo (Fin s) side
                    (Fin a))) in E. congruence. }
  apply active_profit_positive in Hact. destruct Hact as [_ Hpos].
  destruct (returned_extreme_bounds config (Fin e) p hi lo (Fin s) side
              (Fin a) Hc) as (_ & Hprice & _).
  destruct side; unfold extremeOf, noWorse, profitQ in *;
    cbn [carriedOf] in Hc.
  - destruct (long_call_shape config e p s a d hi lo Ed Hc)
      as (H & HH & _ & [Hs | Hs]); rewrite Hs in Hx; [discriminate|].
    injection Hx as <-. rewrite HH in Hprice |- *.
    cbn [num_leb] in *. split; qsolve.
  - destruct (short_call_shape config e p s a d hi lo Ed Hc)
      as (L & HL & _ & [Hs | Hs]); rewrite Hs in Hx; [discriminate|].
    injection Hx as <-. rewrite HL in Hprice |- *.
    cbn [num_leb] in *. split; qsolve.
Qed.

Lemma stop_not_beyond_extreme_witness :
  noWorse long (Fin (Qmax 100 (Qmax 120 111 - 2 * 1)))
    (extremeOf long
       (calculateTrailingStop (sampleConfig Level1 1) (Fin 100) (Fin 111)
          (Some (lit 120)) None (Fin 90) long (Fin 2)))
  /\ noWorse long (Fin 100) (Fin (Qmax 100 (Qmax 120 111 - 2 * 1))).
Proof.
  apply (stop_not_beyond_extreme (sampleConfig Level1 1) 100 111 90 long
           (Some (lit 120)) None 2).
  - exact I.
  - exact I.
  - reflexivity.
  - reflexivity.
Defined.



(* ================================================================== *)
(** ** More on the take-profit ladder *)
(* ================================================================== *)


(* ================================================================== *)
(** ** More on the entry evaluator *)
(* ================================================================== *)

Lemma cci_filters_disjoint a a' ind :
  spec_auxLong a ind && spec_auxShort a' ind = false.
Proof.
  unfold spec_auxLong, spec_auxShort.
  destruct (cci ind) as [c| | |]; destruct a, a'; simpl;
    try reflexivity;
    repeat match goal with
      | |- context [Qltb ?x ?y] =>
          let E := fresh "E" in destruct (Qltb x y) eqn:E
      end; simpl; try reflexivity;
    try (destruct (isUp _); simpl);
    try (destruct (isDown _); simpl); try reflexivity;
    exfalso; qprop; lra.
Qed.

Lemma num_min_below (a b u v p : number) :
  num_leb a u = true -> num_ltb u p = true ->
  num_leb b v = true -> num_ltb v p = true ->
  num_ltb (num_min a b) p = true.
Proof.
  destruct a, b, u, v, p; simpl; intros H1 H2 H3 H4;
    try discriminate; try reflexivity; qsolve.
Qed.

Lemma num_max_above (a b u v p : number) :
  num_leb u a = true -> num_ltb p u = true ->
  num_leb v b = true -> num_ltb p v = true ->
  num_ltb p (num_max a b) = true.
Proof.
  destruct a, b, u, v, p; simpl; intros H1 H2 H3 H4;
    try discriminate; try reflexivity; qsolve.
Qed.

Lemma num_ltb_nan_l (x : number) : num_ltb NaN x = false.
Proof. reflexivity. Qed.

Lemma num_ltb_nan_r (x : number) : num_ltb x NaN = false.
Proof. destruct x; reflexivity. Qed.

Section EntryExtras.

Variable toFixed : number -> nat -> string.
Variable bull bear : list Candle -> MACDConfig -> bool.

(** X7.  The long and the short check never both signal on the same price
    and snapshot, at any pair of tiers and on any candles: the long filter
    needs a CCI above a non-negative threshold and the short filter a CCI
    below a non-positive one.  The order in which the generator tries the
    two checks therefore never decides the type of a signal. *)
Theorem long_and_short_never_both price ind candles candles' a a' i5 i5' :
  signal (checkLongEntry toFixed bull price ind candles a i5)
  && signal (checkShortEntry toFixed bear price ind candles' a' i5')
  = false.
Proof.
  rewrite long_signal_bool, short_signal_bool.
  pose proof (cci_filters_disjoint a a' ind) as H.
  destruct (spec_auxLong a ind), (spec_auxShort a' ind);
    try discriminate H;
    rewrite ?andb_false_r; reflexivity.
Qed.

(** X8.  Data that is not a number never produces a signal: with a [NaN]
    price or CCI neither check signals, a [NaN] upper band blocks the long
    check and a [NaN] lower band the short check. *)
Theorem nan_never_signals price ind candles a i5 :
  (price = NaN \/ cci ind = NaN ->
   signal (checkLongEntry toFixed bull price ind candles a i5) = false
   /\ signal (checkShortEntry toFixed bear price ind candles a i5) = false)
  /\ (upper (keltner ind) = NaN \/ upper (bollinger ind) = NaN ->
      signal (checkLongEntry toFixed bull price ind candles a i5) = false)
  /\ (lower (keltner ind) = NaN \/ lower (bollinger ind) = NaN ->
      signal (checkShortEntry toFixed bear price ind candles a i5) = false).
Proof.
  rewrite long_signal_bool, short_signal_bool.
  unfold spec_auxLong, spec_auxShort, num_gtb.
  split; [|split];
    intros [H | H]; rewrite H;
    rewrite ?num_ltb_nan_l, ?num_ltb_nan_r;
    cbn [andb]; rewrite ?andb_false_r; auto.
Qed.

(** X9.  An entry the evaluator signals has its initial stop strictly on
    the losing side of the entry price, provided each channel of the
    snapshot has its lower band at or below its upper band: below the price
    for a long, above it for a short.  The risk of such a position is not
    zero. *)
Theorem signalled_entry_has_its_stop_behind price ind candles a i5 :
  bandsOrdered ind ->
  (signal (checkLongEntry toFixed bull price ind candles a i5) = true ->
   num_ltb (calculateStopLoss price long ind) price = true)
  /\ (signal (checkShortEntry toFixed bear price ind candles a i5) = true ->
      num_ltb price (calculateStopLoss price short ind) = true).
Proof.
  intros [Hk Hb]. rewrite long_signal_bool, short_signal_bool.
  split; intro H;
    repeat (apply andb_true_iff in H; destruct H as [H ?]); simpl.
  - eapply num_min_below; eauto.
  - eapply num_max_above; eauto.
Qed.

End EntryExtras.

(* ================================================================== *)
(** ** More on the snapshot builder *)
(* ================================================================== *)

(** Reduce the projections of explicit signals and states. *)
Ltac proj_cbn :=
  cbn [sigType sigReason sigTimestamp sigPrice sigIndicators
       signalCheckCount indicatorFailCount longCheckCount shortCheckCount
       console fst snd bind ret consoleWrite incrIndicatorFailCount
       incrLongCheckCount incrShortCheckCount readSignalCheckCount].

(** Close a goal on the state a run leaves. *)
Ltac effect_done :=
  run_catch;
  do 3 eexists; (split; [reflexivity|]); (split; [repeat split|]);
  cbn; first [reflexivity | symmetry; apply app_nil_r].

Section SnapshotExtras.

Variable getLatestKeltnerChannel :
  list Candle -> KeltnerChannelConfig -> Outcome (option ChannelBands).
Variable getLatestBollingerBands :
  list Candle -> BollingerBandsConfig -> Outcome (option ChannelBands).
Variable getLatestMACD :
  list Candle -> MACDConfig -> Outcome (option MACDValue).
Variable getLatestCCI :
  list Candle -> CCIConfig -> Outcome (option number).
Variable getLatestSuperTrend :
  list Candle -> SuperTrendConfig -> Outcome (option SuperTrendValue).
Variable calculateATR :
  list number -> list number -> list number -> number ->
  Outcome (list number).
Variable config : TradingConfig.

Local Abbreviation snapshot :=
  (calculateIndicators getLatestKeltnerChannel getLatestBollingerBands
     getLatestMACD getLatestCCI getLatestSuperTrend calculateATR config).

(** X10.  On 35 candles or more the adapters are called in the order
    Keltner, Bollinger, MACD, CCI, SuperTrend, ATR and the first one to throw
    ends the computation.  When the catch block can inspect the thrown value
    the result is no snapshot, and that first error, and no other, is
    written to the console, unless its message contains "Insufficient data",
    in which case nothing is written.  When the inspection itself throws,
    what it throws reaches the caller and nothing is written.  When no
    adapter throws the state is left as it was. *)
Theorem first_error_is_the_one_handled candles w :
  (35 <= List.length candles)%nat ->
  match
    adapterThrows getLatestKeltnerChannel getLatestBollingerBands
      getLatestMACD getLatestCCI getLatestSuperTrend calculateATR config
      candles
  with
  | Some e =>
      snapshot candles w
      = match mentionsInsufficientData e with
        | Ret insufficient =>
            (Ret None,
             if insufficient then w else withLine w (errorLine e))
        | Throw raised => (Throw raised, w)
        end
  | None => snd (snapshot candles w) = w
  end.
Proof.
  intro Hlen. apply Nat.ltb_ge in Hlen.
  unfold calculateIndicators, adapterThrows. rewrite Hlen.
  unfold tryCatch, bind, call, ret, withLine, errorLine.
  destruct (getLatestKeltnerChannel candles (keltnerConfig config))
    as [k|e1]; cbn [thrownOf firstThrown];
    [| destruct e1; run_catch; reflexivity ].
  destruct (getLatestBollingerBands candles (bollingerConfig config))
    as [b|e2]; cbn [thrownOf firstThrown];
    [| destruct e2; run_catch; reflexivity ].
  destruct (getLatestMACD candles (macdConfig config))
    as [m|e3]; cbn [thrownOf firstThrown];
    [| destruct e3; run_catch; reflexivity ].
  destruct (getLatestCCI candles (cciConfig config))
    as [c|e4]; cbn [thrownOf firstThrown];
    [| destruct e4; run_catch; reflexivity ].
  destruct (getLatestSuperTrend candles (supertrendConfig config))
    as [s|e5]; cbn [thrownOf firstThrown];
    [| destruct e5; run_catch; reflexivity ].
  destruct (atrSeries calculateATR config candles)
    as [a|e6]; cbn [thrownOf firstThrown];
    [| destruct e6; run_catch; reflexivity ].
  destruct k, b, m, c, s, a; reflexivity.
Qed.

(** What a call of the snapshot builder does to the state, however it
    ends: the counters are kept and the console only grows. *)
Lemma snapshot_effect candles w :
  exists o w' extra,
    snapshot candles w = (o, w')
    /\ sameCounters w w'
    /\ console w' = (console w ++ extra)%list.
Proof.
  unfold calculateIndicators.
  destruct (List.length candles <? 35)%nat.
  { exists (Ret None), w, []. repeat split. symmetry. apply app_nil_r. }
  unfold tryCatch, bind, call, ret.
  destruct (getLatestKeltnerChannel candles (keltnerConfig config))
    as [k|e1]; [| destruct e1; effect_done ].
  destruct (getLatestBollingerBands candles (bollingerConfig config))
    as [b|e2]; [| destruct e2; effect_done ].
  destruct (getLatestMACD candles (macdConfig config))
    as [m|e3]; [| destruct e3; effect_done ].
  destruct (getLatestCCI candles (cciConfig config))
    as [c|e4]; [| destruct e4; effect_done ].
  destruct (getLatestSuperTrend candles (supertrendConfig config))
    as [s|e5]; [| destruct e5; effect_done ].
  destruct (atrSeries calculateATR config candles)
    as [a|e6]; [| destruct e6; effect_done ].
  destruct k, b, m, c, s, a; effect_done.
Qed.

End SnapshotExtras.

(* ================================================================== *)
(** ** More on the signal generator *)
(* ================================================================== *)

Lemma sameCounters_trans w1 w2 w3 :
  sameCounters w1 w2 -> sameCounters w2 w3 -> sameCounters w1 w3.
Proof.
  unfold sameCounters. intros (A1 & A2 & A3 & A4) (B1 & B2 & B3 & B4).
  repeat split; congruence.
Qed.

Section GeneratorExtras.

Variable toFixed : number -> nat -> string.
Variable getLatestKeltnerChannel :
  list Candle -> KeltnerChannelConfig -> Outcome (option ChannelBands).
Variable getLatestBollingerBands :
  list Candle -> BollingerBandsConfig -> Outcome (option ChannelBands).
Variable getLatestMACD :
  list Candle -> MACDConfig -> Outcome (option MACDValue).
Variable getLatestCCI :
  list Candle -> CCIConfig -> Outcome (option number).
Variable getLatestSuperTrend :
  list Candle -> SuperTrendConfig -> Outcome (option SuperTrendValue).
Variable calculateATR :
  list number -> list number -> list number -> number ->
  Outcome (list number).
Variable isMACDBullishCrossover : list Candle -> MACDConfig -> bool.
Variable isMACDBearishCrossover : list Candle -> MACDConfig -> bool.
Variable config : TradingConfig.

Local Abbreviation generate :=
  (generateSignal toFixed getLatestKeltnerChannel getLatestBollingerBands
     getLatestMACD getLatestCCI getLatestSuperTrend calculateATR
     isMACDBullishCrossover isMACDBearishCrossover config).

Local Abbreviation snapshot :=
  (calculateIndicators getLatestKeltnerChannel getLatestBollingerBands
     getLatestMACD getLatestCCI getLatestSuperTrend calculateATR config).

Local Abbreviation longCheck price ind candles :=
  (checkLongEntry toFixed isMACDBullishCrossover price ind candles
     (aggressiveness (strategy config)) None).

Local Abbreviation shortCheck price ind candles :=
  (checkShortEntry toFixed isMACDBearishCrossover price ind candles
     (aggressiveness (strategy config)) None).

Local Abbreviation confirmation candles5m :=
  (match candles5m with
   | Some ((_ :: _) as c5) => snapshot c5
   | _ => ret None
   end).

Local Abbreviation completes5m :=
  (confirmationCompletes getLatestKeltnerChannel getLatestBollingerBands
     getLatestMACD getLatestCCI getLatestSuperTrend calculateATR config).

(** The confirmation snapshot, with its effect on the state. *)
Lemma confirmation_effect candles5m w :
  exists o w' extra,
    confirmation candles5m w = (o, w')
    /\ sameCounters w w'
    /\ console w' = (console w ++ extra)%list.
Proof.
  destruct candles5m as [[|c r]|].
  - exists (Ret None), w, []. repeat split. symmetry. apply app_nil_r.
  - apply snapshot_effect.
  - exists (Ret None), w, []. repeat split. symmetry. apply app_nil_r.
Qed.

(** The confirmation snapshot ends the same way from every state, and
    returns when the catch block can inspect what is thrown. *)
Lemma confirmation_outcome candles5m :
  exists o,
    yieldsAlways (confirmation candles5m) o
    /\ (completes5m candles5m -> exists v, o = Ret v).
Proof.
  destruct candles5m as [[|c r]|].
  - exists (Ret None). split; [apply returnsAlways_ret | eauto].
  - apply calculateIndicators_fixed.
  - exists (Ret None). split; [apply returnsAlways_ret | eauto].
Qed.

(** One call on a non-empty candle list, step by step: how it ends and the
    state it leaves, by the outcome of the two snapshots and the value of
    the two checks. *)
Lemma generateSignal_run now first rest candles5m w :
  exists o w',
    generate now (first :: rest) candles5m w = (o, w')
    /\ signalCheckCount w' = S (signalCheckCount w)
    /\ match o with
       | Throw e =>
           indicatorFailCount w' = indicatorFailCount w
           /\ longCheckCount w' = longCheckCount w
           /\ shortCheckCount w' = shortCheckCount w
           /\ (fst (snapshot (first :: rest) w) = Throw e
               \/ fst (confirmation candles5m w) = Throw e)
       | Ret sig =>
           sigPrice sig = close (last (first :: rest) first)
           /\ sigTimestamp sig = closeTime (last (first :: rest) first)
           /\ fst (snapshot (first :: rest) w) = Ret (sigIndicators sig)
           /\ match sigIndicators sig with
              | None =>
                  sigType sig = type_none
                  /\ sigReason sig
                     = "Insufficient data for indicators"%string
                  /\ indicatorFailCount w' = S (indicatorFailCount w)
                  /\ longCheckCount w' = longCheckCount w
                  /\ shortCheckCount w' = shortCheckCount w
              | Some ind =>
                  indicatorFailCount w' = indicatorFailCount w
                  /\ if signal (longCheck
                                  (close (last (first :: rest) first)) ind
                                  (first :: rest))
                     then
                       sigType sig = type_long
                       /\ sigReason sig
                          = reason (longCheck
                                      (close (last (first :: rest) first))
                                      ind (first :: rest))
                       /\ longCheckCount w' = S (longCheckCount w)
                       /\ shortCheckCount w' = shortCheckCount w
                       /\ exists before,
                           console w'
                           = (before
                              ++ [ConsoleLog
                                    (newline ++ "[SIGNAL] LONG at check "
                                     ++ showNat (S (signalCheckCount w))
                                     ++ ": " ++ sigReason sig)%string])%list
                     else if signal (shortCheck
                                       (close (last (first :: rest) first))
                                       ind (first :: rest))
                     then
                       sigType sig = type_short
                       /\ sigReason sig
                          = reason (shortCheck
                                      (close (last (first :: rest) first))
                                      ind (first :: rest))
                       /\ longCheckCount w' = longCheckCount w
                       /\ shortCheckCount w' = S (shortCheckCount w)
                       /\ exists before,
                           console w'
                           = (before
                              ++ [ConsoleLog
                                    (newline ++ "[SIGNAL] SHORT at check "
                                     ++ showNat (S (signalCheckCount w))
                                     ++ ": " ++ sigReason sig)%string])%list
                     else
                       sigType sig = type_none
                       /\ sigReason sig = "No entry conditions met"%string
                       /\ longCheckCount w' = longCheckCount w
                       /\ shortCheckCount w' = shortCheckCount w
              end
       end.
Proof.
  destruct (calculateIndicators_fixed getLatestKeltnerChannel
              getLatestBollingerBands getLatestMACD getLatestCCI
              getLatestSuperTrend calculateATR config (first :: rest))
    as (o1 & Ho1 & _).
  destruct (confirmation_outcome candles5m) as (o5 & Ho5 & _).
  pose proof (yieldsAlways_value _ _ w Ho1) as F1.
  pose proof (yieldsAlways_value _ _ w Ho5) as F5.
  unfold generateSignal.
  unfold bind at 1. unfold incrSignalCheckCount at 1.
  set (w0 := {| signalCheckCount := S (signalCheckCount w);
                indicatorFailCount := indicatorFailCount w;
                longCheckCount := longCheckCount w;
                shortCheckCount := shortCheckCount w;
                console := console w |}).
  destruct (snapshot_effect getLatestKeltnerChannel getLatestBollingerBands
              getLatestMACD getLatestCCI getLatestSuperTrend calculateATR
              config (first :: rest) w0)
    as (o1' & w1 & ex1 & E1 & (C1a & C1b & C1c & C1d) & L1).
  assert (o1' = o1).
  { destruct (Ho1 w0) as [w1' Hw]. rewrite Hw in E1. congruence. }
  subst o1'.
  cbv zeta. unfold bind at 1. rewrite E1.
  destruct o1 as [[ind|]|e1].
  - destruct (confirmation_effect candles5m w1)
      as (o5' & w2 & ex5 & E5 & (C5a & C5b & C5c & C5d) & L5).
    assert (o5' = o5).
    { destruct (Ho5 w1) as [w2' Hw]. rewrite Hw in E5. congruence. }
    subst o5'.
    unfold bind at 1. rewrite E5.
    destruct o5 as [v5|e5].
    + change (checkLongEntry toFixed isMACDBullishCrossover
                (close (last (first :: rest) first)) ind (first :: rest)
                (aggressiveness (strategy config)) v5)
        with (longCheck (close (last (first :: rest) first)) ind
                (first :: rest)).
      change (checkShortEntry toFixed isMACDBearishCrossover
                (close (last (first :: rest) first)) ind (first :: rest)
                (aggressiveness (strategy config)) v5)
        with (shortCheck (close (last (first :: rest) first)) ind
                (first :: rest)).
      destruct (signal (longCheck (close (last (first :: rest) first)) ind
                          (first :: rest))) eqn:EL;
        [| destruct (signal (shortCheck
                               (close (last (first :: rest) first))
                               ind (first :: rest))) eqn:ES ].
      * do 2 eexists. split; [reflexivity|]. proj_cbn.
        rewrite C5a, C5b, C5c, C5d, C1a, C1b, C1c, C1d. proj_cbn.
        rewrite EL.
        repeat (split; [first [reflexivity | exact F1]|]).
        eexists. reflexivity.
      * do 2 eexists. split; [reflexivity|]. proj_cbn.
        rewrite C5a, C5b, C5c, C5d, C1a, C1b, C1c, C1d. proj_cbn.
        rewrite EL, ES.
        repeat (split; [first [reflexivity | exact F1]|]).
        eexists. reflexivity.
      * do 2 eexists. split; [reflexivity|]. proj_cbn.
        rewrite C5a, C5b, C5c, C5d, C1a, C1b, C1c, C1d. proj_cbn.
        rewrite EL, ES.
        repeat (split; [first [reflexivity | exact F1]|]).
        reflexivity.
    + do 2 eexists. split; [reflexivity|]. proj_cbn.
      rewrite C5a, C5b, C5c, C5d, C1a, C1b, C1c, C1d. proj_cbn.
      repeat (split; [reflexivity|]).
      right. exact F5.
  - do 2 eexists. split; [reflexivity|]. proj_cbn.
    rewrite C1a, C1b, C1c, C1d. proj_cbn.
    repeat (split; [first [reflexivity | exact F1]|]).
    reflexivity.
  - do 2 eexists. split; [reflexivity|]. proj_cbn.
    rewrite C1a, C1b, C1c, C1d. proj_cbn.
    repeat (split; [reflexivity|]).
    left. exact F1.
Qed.

(** The two checks of the generator exclude each other. *)
Lemma long_and_short_exclusive_at price ind candles :
  signal (longCheck price ind candles) = true ->
  signal (shortCheck price ind candles) = false.
Proof.
  rewrite long_signal_bool, short_signal_bool.
  pose proof (cci_filters_disjoint (aggressiveness (strategy config))
                (aggressiveness (strategy config)) ind) as H.
  destruct (spec_auxLong _ ind), (spec_auxShort _ ind);
    try discriminate H; rewrite ?andb_false_r;
    intro Hl; try discriminate Hl; reflexivity.
Qed.

(** X11.  On a non-empty candle list the returned signal always carries
    the close and the close time of the last candle and the snapshot of the
    1-minute candles (none when it could not be built).  Its type is long
    exactly when that snapshot exists and the long check signals on it, and
    short exactly when the snapshot exists and the short check signals on
    it; the reason is the one of the check that signalled. *)
Theorem signal_type_follows_the_checks now first rest candles5m w sig :
  fst (generateSignal toFixed getLatestKeltnerChannel getLatestBollingerBands
         getLatestMACD getLatestCCI getLatestSuperTrend calculateATR
         isMACDBullishCrossover isMACDBearishCrossover config
         now (first :: rest) candles5m w) = Ret sig ->
  sigPrice sig = close (last (first :: rest) first)
  /\ sigTimestamp sig = closeTime (last (first :: rest) first)
  /\ fst (calculateIndicators getLatestKeltnerChannel getLatestBollingerBands
            getLatestMACD getLatestCCI getLatestSuperTrend calculateATR
            config (first :: rest) w) = Ret (sigIndicators sig)
  /\ (sigType sig = type_long <->
      exists ind,
        sigIndicators sig = Some ind
        /\ signal (longCheck (sigPrice sig) ind (first :: rest)) = true)
  /\ (sigType sig = type_short <->
      exists ind,
        sigIndicators sig = Some ind
        /\ signal (shortCheck (sigPrice sig) ind (first :: rest)) = true)
  /\ (forall ind,
         sigIndicators sig = Some ind ->
         (sigType sig = type_long ->
          sigReason sig
          = reason (longCheck (sigPrice sig) ind (first :: rest)))
         /\ (sigType sig = type_short ->
             sigReason sig
             = reason (shortCheck (sigPrice sig) ind (first :: rest)))).
Proof.
  intro Hsig.
  destruct (generateSignal_run now first rest candles5m w)
    as (o & w' & Hrun & _ & Hcase).
  rewrite Hrun in Hsig. simpl in Hsig. subst o.
  destruct Hcase as (Hp & Ht & Hv & Hcase).
  rewrite Hp. split; [reflexivity|]. split; [exact Ht|].
  split; [exact Hv|]. clear Hv.
  destruct (sigIndicators sig) as [ind|].
  - destruct Hcase as [_ Hcase].
    pose proof (long_and_short_exclusive_at
                  (close (last (first :: rest) first))
                  ind (first :: rest)) as Hex.
    destruct (signal (longCheck _ ind (first :: rest))) eqn:EL;
      [| destruct (signal (shortCheck _ ind (first :: rest))) eqn:ES ].
    + destruct Hcase as (Hty & Hre & _). rewrite Hty.
      split; [split; [intros _; exists ind; auto | reflexivity]|].
      split.
      { split; [discriminate|].
        intros (ind' & Hind & Hs). injection Hind as <-.
        rewrite (Hex eq_refl) in Hs. discriminate Hs. }
      intros ind' Hind. injection Hind as <-.
      split; [intros _; exact Hre | discriminate].
    + destruct Hcase as (Hty & Hre & _). rewrite Hty.
      split.
      { split; [discriminate|].
        intros (ind' & Hind & Hs). injection Hind as <-. congruence. }
      split; [split; [intros _; exists ind; auto | reflexivity]|].
      intros ind' Hind. injection Hind as <-.
      split; [discriminate | intros _; exact Hre].
    + destruct Hcase as (Hty & _). rewrite Hty.
      split.
      { split; [discriminate|].
        intros (ind' & Hind & Hs). injection Hind as <-. congruence. }
      split.
      { split; [discriminate|].
        intros (ind' & Hind & Hs). injection Hind as <-. congruence. }
      intros ind' Hind. split; discriminate.
  - destruct Hcase as (Hty & _). rewrite Hty.
    split; [split; [discriminate | intros (ind & Hind & _); discriminate]|].
    split; [split; [discriminate | intros (ind & Hind & _); discriminate]|].
    intros ind Hind. discriminate.
Qed.

(** A confirmation snapshot the catch block can handle does not throw. *)
Lemma confirmation_returns candles5m w e :
  completes5m candles5m -> fst (confirmation candles5m w) <> Throw e.
Proof.
  intros Hc H.
  destruct (confirmation_outcome candles5m) as (o & Ho & Hret).
  destruct (Hret Hc) as [v Hv].
  rewrite (yieldsAlways_value _ _ w Ho), Hv in H. discriminate H.
Qed.

(** The outcome of the 1-minute snapshot does not depend on the state. *)
Lemma snapshot_same_outcome candles w w' :
  fst (snapshot candles w) = fst (snapshot candles w').
Proof.
  destruct (calculateIndicators_fixed getLatestKeltnerChannel
              getLatestBollingerBands getLatestMACD getLatestCCI
              getLatestSuperTrend calculateATR config candles)
    as (o & Ho & _).
  rewrite !(yieldsAlways_value _ _ _ Ho). reflexivity.
Qed.

(** A signal is fixed by its five fields. *)
Lemma signal_fixed_by_fields (s1 s2 : Signal) :
  sigPrice s1 = sigPrice s2 ->
  sigTimestamp s1 = sigTimestamp s2 ->
  sigIndicators s1 = sigIndicators s2 ->
  sigType s1 = sigType s2 ->
  sigReason s1 = sigReason s2 ->
  s1 = s2.
Proof.
  destruct s1, s2; simpl; intros; subst; reflexivity.
Qed.

(** X12.  The confirmation candles never change how a call ends: two calls
    on the same 1-minute candles end with the same signal, or the same
    thrown value, whatever 5-minute candles each is given, none included,
    and from whatever state, as long as the catch block can inspect what
    the adapters throw on the 5-minute candles.  The snapshot built from
    them is passed to the checks and read by neither. *)
Theorem confirmation_candles_are_unused
    now candles1m candles5m candles5m' w w' :
  confirmationCompletes getLatestKeltnerChannel getLatestBollingerBands
    getLatestMACD getLatestCCI getLatestSuperTrend calculateATR config
    candles5m ->
  confirmationCompletes getLatestKeltnerChannel getLatestBollingerBands
    getLatestMACD getLatestCCI getLatestSuperTrend calculateATR config
    candles5m' ->
  fst (generateSignal toFixed getLatestKeltnerChannel getLatestBollingerBands
         getLatestMACD getLatestCCI getLatestSuperTrend calculateATR
         isMACDBullishCrossover isMACDBearishCrossover config
         now candles1m candles5m w)
  = fst (generateSignal toFixed getLatestKeltnerChannel getLatestBollingerBands
         getLatestMACD getLatestCCI getLatestSuperTrend calculateATR
         isMACDBullishCrossover isMACDBearishCrossover config
         now candles1m candles5m' w').
Proof.
  intros Hc Hc'.
  destruct candles1m as [|first rest]; [reflexivity|].
  destruct (generateSignal_run now first rest candles5m w)
    as (o1 & w1 & Hrun1 & _ & Hcase1).
  destruct (generateSignal_run now first rest candles5m' w')
    as (o2 & w2 & Hrun2 & _ & Hcase2).
  rewrite Hrun1, Hrun2. cbn [fst].
  pose proof (snapshot_same_outcome (first :: rest) w w') as Hsame.
  destruct o1 as [s1|e1], o2 as [s2|e2].
  - destruct Hcase1 as (Hp1 & Ht1 & Hv1 & Hk1).
    destruct Hcase2 as (Hp2 & Ht2 & Hv2 & Hk2).
    assert (Hi : sigIndicators s1 = sigIndicators s2) by congruence.
    f_equal. apply signal_fixed_by_fields; try congruence;
      rewrite <- Hi in Hk2;
      destruct (sigIndicators s1) as [ind|].
    + destruct Hk1 as [_ Hk1], Hk2 as [_ Hk2].
      destruct (signal (longCheck _ ind (first :: rest)));
        [| destruct (signal (shortCheck _ ind (first :: rest))) ];
        destruct Hk1 as (-> & _), Hk2 as (-> & _); reflexivity.
    + destruct Hk1 as (-> & _), Hk2 as (-> & _). reflexivity.
    + destruct Hk1 as [_ Hk1], Hk2 as [_ Hk2].
      destruct (signal (longCheck _ ind (first :: rest)));
        [| destruct (signal (shortCheck _ ind (first :: rest))) ];
        destruct Hk1 as (_ & -> & _), Hk2 as (_ & -> & _); reflexivity.
    + destruct Hk1 as (_ & -> & _), Hk2 as (_ & -> & _). reflexivity.
  - exfalso. destruct Hcase1 as (_ & _ & Hv1 & _).
    destruct Hcase2 as (_ & _ & _ & [H | H]).
    + congruence.
    + exact (confirmation_returns _ _ _ Hc' H).
  - exfalso. destruct Hcase2 as (_ & _ & Hv2 & _).
    destruct Hcase1 as (_ & _ & _ & [H | H]).
    + congruence.
    + exact (confirmation_returns _ _ _ Hc H).
  - destruct Hcase1 as (_ & _ & _ & [H1 | H1]);
      [| exfalso; exact (confirmation_returns _ _ _ Hc H1)].
    destruct Hcase2 as (_ & _ & _ & [H2 | H2]);
      [| exfalso; exact (confirmation_returns _ _ _ Hc' H2)].
    congruence.
Qed.

(** X13.  What one call does to the instance and the console: the check
    counter goes up by one on every call, whether the call returns or
    throws.  When it returns, the long counter goes up by one exactly when
    the signal is long and the short counter exactly when it is short, the
    failure counter goes up by one exactly when the candle list is non-empty
    and no snapshot could be built, and a long or short signal is the last
    line on the console, with the value of the check counter after the call
    as its check number.  When it throws, the other three counters are
    left as they were. *)
Theorem call_accounting now candles1m candles5m w :
  exists o w',
    generateSignal toFixed getLatestKeltnerChannel getLatestBollingerBands
      getLatestMACD getLatestCCI getLatestSuperTrend calculateATR
      isMACDBullishCrossover isMACDBearishCrossover config
      now candles1m candles5m w
    = (o, w')
    /\ signalCheckCount w' = S (signalCheckCount w)
    /\ match o with
       | Ret sig =>
           longCheckCount w'
           = (longCheckCount w + oneIf (isLong (sigType sig)))%nat
           /\ shortCheckCount w'
              = (shortCheckCount w + oneIf (isShort (sigType sig)))%nat
           /\ indicatorFailCount w'
              = (indicatorFailCount w
                 + oneIf (match candles1m, sigIndicators sig with
                          | _ :: _, None => true
                          | _, _ => false
                          end))%nat
           /\ (isLong (sigType sig) || isShort (sigType sig) = true ->
               exists before,
                 console w'
                 = (before
                    ++ [signalLogLine sig (signalCheckCount w')])%list)
       | Throw _ =>
           longCheckCount w' = longCheckCount w
           /\ shortCheckCount w' = shortCheckCount w
           /\ indicatorFailCount w' = indicatorFailCount w
       end.
Proof.
  destruct candles1m as [|first rest].
  - do 2 eexists. split; [reflexivity|]. cbn.
    rewrite !Nat.add_0_r. repeat split. discriminate.
  - destruct (generateSignal_run now first rest candles5m w)
      as (o & w' & Hrun & Hn & Hcase).
    exists o, w'. split; [exact Hrun|]. split; [exact Hn|].
    destruct o as [sig|e].
    + destruct Hcase as (_ & _ & _ & Hcase).
      rewrite Hn. unfold signalLogLine.
      destruct (sigIndicators sig) as [ind|].
      * destruct Hcase as [Hf Hcase].
        destruct (signal (longCheck _ ind (first :: rest)));
          [| destruct (signal (shortCheck _ ind (first :: rest))) ].
        -- destruct Hcase as (Hty & _ & Hl & Hs & Hlog).
           rewrite Hty, Hl, Hs, Hf. cbn.
           rewrite !Nat.add_0_r, Nat.add_1_r. repeat split.
           intros _. exact Hlog.
        -- destruct Hcase as (Hty & _ & Hl & Hs & Hlog).
           rewrite Hty, Hl, Hs, Hf. cbn.
           rewrite !Nat.add_0_r, Nat.add_1_r. repeat split.
           intros _. exact Hlog.
        -- destruct Hcase as (Hty & _ & Hl & Hs).
           rewrite Hty, Hl, Hs, Hf. cbn.
           rewrite !Nat.add_0_r. repeat split. discriminate.
      * destruct Hcase as (Hty & _ & Hf & Hl & Hs).
        rewrite Hty, Hl, Hs, Hf. cbn.
        rewrite !Nat.add_0_r, Nat.add_1_r. repeat split. discriminate.
    + destruct Hcase as (Hf & Hl & Hs & _). repeat split; assumption.
Qed.

(** X14.  Warm-up: on a non-empty list of fewer than 35 candles no adapter
    is consulted; the call returns no signal with the reason "Insufficient
    data for indicators", priced and stamped from the last candle, counts one
    check and one indicator failure and writes nothing, whatever the adapters
    would have answered and whatever 5-minute candles are passed. *)
Theorem warm_up_gives_no_signal now first rest candles5m w :
  (List.length (first :: rest) < 35)%nat ->
  generateSignal toFixed getLatestKeltnerChannel getLatestBollingerBands
         getLatestMACD getLatestCCI getLatestSuperTrend calculateATR
         isMACDBullishCrossover isMACDBearishCrossover config
         now (first :: rest) candles5m w
  = (Ret {| sigType := type_none;
            sigReason := "Insufficient data for indicators";
            sigTimestamp := closeTime (last (first :: rest) first);
            sigPrice := close (last (first :: rest) first);
            sigIndicators := None |},
     afterWarmUp w).
Proof.
  intro Hlen. apply Nat.ltb_lt in Hlen.
  unfold generateSignal, bind, incrSignalCheckCount, calculateIndicators.
  rewrite Hlen. reflexivity.
Qed.

End GeneratorExtras.

(* ================================================================== *)
(** ** The further properties on sample inputs *)
(* ================================================================== *)

Lemma nan_never_signals_witness :
  signal (checkLongEntry sampleToFixed (crossoverAlways true) NaN
            (sampleSnapshot 2045 1985 2040 1990 120 up) [] Level3 None)
  = false
  /\ signal (checkShortEntry sampleToFixed (crossoverAlways true) NaN
               (sampleSnapshot 2045 1985 2040 1990 120 up) [] Level3 None)
     = false.
Proof.
  apply (nan_never_signals sampleToFixed (crossoverAlways true)
           (crossoverAlways true) NaN
           (sampleSnapshot 2045 1985 2040 1990 120 up) [] Level3 None).
  left. reflexivity.
Defined.

Lemma signalled_entry_has_its_stop_behind_witness :
  num_ltb
    (calculateStopLoss (lit 2050) long
       (sampleSnapshot 2045 1985 2040 1990 120 up))
    (lit 2050)
  = true.
Proof.
  apply (signalled_entry_has_its_stop_behind sampleToFixed
           (crossoverAlways true) (crossoverAlways false) (lit 2050)
           (sampleSnapshot 2045 1985 2040 1990 120 up) [] Level1 None).
  - split; reflexivity.
  - reflexivity.
Defined.

Lemma first_error_is_the_one_handled_witness :
  calculateIndicators
    (constAdapter (Ret (Some sampleBandsKC)))
    (constAdapter (Throw (ErrorObject "period must be positive")))
    (constAdapter (Ret (Some sampleMACD)))
    (constAdapter (Throw (ErrorObject "Insufficient data for CCI")))
    (constAdapter (Ret (Some sampleSuperTrend)))
    (constATR (Ret [lit 4; lit 5]))
    (sampleConfig Level1 1) sampleCandles usedWorld
  = (Ret None,
     withLine usedWorld
       (errorLine (ErrorObject "period must be positive"))).
Proof.
  refine (first_error_is_the_one_handled
            (constAdapter (Ret (Some sampleBandsKC)))
            (constAdapter (Throw (ErrorObject "period must be positive")))
            (constAdapter (Ret (Some sampleMACD)))
            (constAdapter (Throw (ErrorObject "Insufficient data for CCI")))
            (constAdapter (Ret (Some sampleSuperTrend)))
            (constATR (Ret [lit 4; lit 5]))
            (sampleConfig Level1 1) sampleCandles usedWorld _).
  apply Nat.leb_le. reflexivity.
Defined.

Lemma signal_type_follows_the_checks_witness :
  exists sig,
    fst (sampleGenerate (constAdapter (Ret (Some (lit 120)))) (lit 1000)
           sampleCandles None freshWorld) = Ret sig
    /\ sigPrice sig = lit 2050
    /\ sigTimestamp sig = lit 60000.
Proof.
  eexists. split; [reflexivity|].
  destruct (signal_type_follows_the_checks sampleToFixed
              (constAdapter (Ret (Some sampleBandsKC)))
              (constAdapter (Ret (Some sampleBandsBB)))
              (constAdapter (Ret (Some sampleMACD)))
              (constAdapter (Ret (Some (lit 120))))
              (constAdapter (Ret (Some sampleSuperTrend)))
              (constATR (Ret [lit 4; lit 5]))
              (crossoverAlways true) (crossoverAlways false)
              (sampleConfig Level1 1) (lit 1000)
              (sampleCandle 2050) (repeat (sampleCandle 2050) 34) None
              freshWorld _ eq_refl) as (Hp & Ht & _).
  split; [exact Hp | exact Ht].
Defined.

Lemma confirmation_candles_are_unused_witness :
  fst (sampleGenerate (constAdapter (Ret (Some (lit 120)))) (lit 1000)
         sampleCandles (Some sampleCandles) freshWorld)
  = fst (sampleGenerate (constAdapter (Ret (Some (lit 120)))) (lit 1000)
           sampleCandles None usedWorld).
Proof.
  unfold sampleGenerate.
  apply confirmation_candles_are_unused.
  - vm_compute. exact I.
  - exact I.
Defined.

Lemma call_accounting_witness :
  exists sig w',
    sampleGenerate (constAdapter (Ret (Some (lit 120)))) (lit 1000)
      sampleCandles None usedWorld = (Ret sig, w')
    /\ signalCheckCount w' = 42%nat
    /\ exists before,
        console w' = (before ++ [signalLogLine sig 42])%list.
Proof.
  destruct (call_accounting sampleToFixed
              (constAdapter (Ret (Some sampleBandsKC)))
              (constAdapter (Ret (Some sampleBandsBB)))
              (constAdapter (Ret (Some sampleMACD)))
              (constAdapter (Ret (Some (lit 120))))
              (constAdapter (Ret (Some sampleSuperTrend)))
              (constATR (Ret [lit 4; lit 5]))
              (crossoverAlways true) (crossoverAlways false)
              (sampleConfig Level1 1) (lit 1000) sampleCandles None
              usedWorld) as (o & w' & Hrun & Hn & Hcase).
  assert (Ho : fst (sampleGenerate (constAdapter (Ret (Some (lit 120))))
                      (lit 1000) sampleCandles None usedWorld) = o).
  { unfold sampleGenerate. rewrite Hrun. reflexivity. }
  vm_compute in Ho. subst o. cbv beta iota in Hcase.
  destruct Hcase as (_ & _ & _ & Hlog).
  do 2 eexists. split; [exact Hrun|]. split; [exact Hn|].
  rewrite Hn in Hlog. apply Hlog. reflexivity.
Defined.

Lemma warm_up_gives_no_signal_witness :
  fst (sampleGenerate (constAdapter (Throw (OtherValue "unreachable")))
         (lit 1000) (repeat (sampleCandle 2050) 3) (Some sampleCandles)
         freshWorld)
  = Ret {| sigType := type_none;
           sigReason := "Insufficient data for indicators";
           sigTimestamp := lit 60000;
           sigPrice := lit 2050;
           sigIndicators := None |}.
Proof.
  refine (f_equal fst
            (warm_up_gives_no_signal sampleToFixed
               (constAdapter (Ret (Some sampleBandsKC)))
               (constAdapter (Ret (Some sampleBandsBB)))
               (constAdapter (Ret (Some sampleMACD)))
               (constAdapter (Throw (OtherValue "unreachable")))
               (constAdapter (Ret (Some sampleSuperTrend)))
               (constATR (Ret [lit 4; lit 5]))
               (crossoverAlways true) (crossoverAlways false)
               (sampleConfig Level1 1) (lit 1000)
               (sampleCandle 2050) (repeat (sampleCandle 2050) 2)
               (Some sampleCandles) freshWorld _)).
  simpl. lia.
Defined.
